(** * Cancellable promises: a shallow embedding of [AbortablePromise]

    The repository ships several drafts of one primitive, a promise that
    can be cancelled from outside:

    - the hook draft (src/index.ts, lines 1-117), where the executor is
      handed an [onCancel] registration point and [abort] runs the
      registered callback;
    - the controller draft (src/unnamed/part_000 and src/index.ts, lines
      118-243), where the class owns an [AbortController] and listens to
      its signal;
    - the external-signal draft (src/index.ts, lines 244-375), where the
      caller supplies the [AbortSignal] and the class mirrors it into a
      private controller.

    Each draft is embedded in a module of its own.  JavaScript runs one
    callback at a time, so an operation is modelled as a state together
    with the sequence of callbacks (events) that the run loop delivers
    to it.  The platform objects the classes are built on ([Promise],
    [AbortController], timers, console) are modelled by their specified
    behaviour: a promise settles at most once, an abort event is
    dispatched once to the listeners in registration order, a listener
    added to a signal that has already aborted is never called. *)

From Stdlib Require Import String List ZArith Bool Arith Lia.
Import ListNotations.
Local Open Scope string_scope.
Local Open Scope list_scope.

(** ** Values shared by the drafts *)

(** [enum TestType]. *)
Inductive TestType : Type := LIPID_GLUCOSE | BLOOD_PRESSURE.

(** The payload [{ data: 50, testType }] of the simulated BLE call. *)
Record BleData : Type := { data : Z; testType : TestType }.

(** What a promise can be rejected with ([reason?: any]).  The sources
    build two shapes: [new AbortError(message)] and the object literal
    [{ errorType: 'OPERATION_ERROR', description: error }]; anything else
    (a thrown exception, say) is kept as an opaque description. *)
Inductive Rejection : Type :=
| AbortError (message : string)
| OPERATION_ERROR (description : string)
| Thrown (what : string).

(** The default of [abort(reason: string = 'Promise was aborted.')] and
    the right operand of [this.#abortReason ?? 'Promise was aborted.']. *)
Definition default_message : string := "Promise was aborted.".

Definition or_default (reason : option string) : string :=
  match reason with
  | Some r => r
  | None => default_message
  end.

(** [error instanceof AbortError], the test the consumer [app] branches on. *)
Definition is_AbortError (e : Rejection) : bool :=
  match e with
  | AbortError _ => true
  | _ => false
  end.

Section Platform.
Context {T : Type}.

(** *** Native promise: first settlement wins *)
Inductive Promise : Type :=
| Pending
| Fulfilled (value : T)
| Rejected (reason : Rejection).

(** The [resolve] function handed to a promise executor (values are
    plain data, never thenables, as at every call site of the sources). *)
Definition resolve (value : T) (p : Promise) : Promise :=
  match p with
  | Pending => Fulfilled value
  | _ => p
  end.

(** The [reject] function handed to a promise executor. *)
Definition reject (reason : Rejection) (p : Promise) : Promise :=
  match p with
  | Pending => Rejected reason
  | _ => p
  end.

(** *** Closures

    Callbacks (cancellation hooks, abort listeners, timer callbacks) are
    closures over the promise's [resolve]/[reject], the timer handle
    and the console.  They are kept as the list of statements they
    run.  A callback that calls back into the object ([abort] or
    [onCancel] from inside a hook) is outside this model. *)
Inductive Stmt : Type :=
| CallResolve (value : T)
| CallReject (reason : Rejection)
| ClearTimeout
| ConsoleLog (line : string)
| Throw (exn : Rejection).

(** The one timer of the simulated BLE call ([timerId]). *)
Inductive Timer : Type :=
| NoTimer
| Armed (callback : list Stmt)
| Cleared
| Fired.

(** The cells the closures share: the wrapped [#promise], the timer
    and the console output. *)
Record Env : Type := {
  promise : Promise;
  timer : Timer;
  console : list string
}.

Definition with_promise (p : Promise) (e : Env) : Env :=
  {| promise := p; timer := timer e; console := console e |}.

Definition with_timer (t : Timer) (e : Env) : Env :=
  {| promise := promise e; timer := t; console := console e |}.

(** [clearTimeout(timerId)]: cancels a timer that has not fired yet. *)
Definition clearTimeout (t : Timer) : Timer :=
  match t with
  | Armed _ => Cleared
  | _ => t
  end.

(** One statement; the second component is the exception it throws. *)
Definition exec_stmt (c : Stmt) (e : Env) : Env * option Rejection :=
  match c with
  | CallResolve v => (with_promise (resolve v (promise e)) e, None)
  | CallReject r => (with_promise (reject r (promise e)) e, None)
  | ClearTimeout => (with_timer (clearTimeout (timer e)) e, None)
  | ConsoleLog l =>
      ({| promise := promise e; timer := timer e;
          console := console e ++ [l] |}, None)
  | Throw x => (e, Some x)
  end.

(** A closure body: statements run in order up to the first throw. *)
Fixpoint exec_block (body : list Stmt) (e : Env) : Env * option Rejection :=
  match body with
  | [] => (e, None)
  | c :: rest =>
      match exec_stmt c e with
      | (e', Some x) => (e', Some x)
      | (e', None) => exec_block rest e'
      end
  end.

(** [setTimeout(callback, 3000)]. *)
Definition setTimeout (callback : list Stmt) (e : Env) : Env :=
  with_timer (Armed callback) e.

(** The timer elapses: an armed timer runs its callback once, a
    cleared one does nothing.  An exception in a timer callback is
    reported by the host and reaches nobody. *)
Definition timer_elapses (e : Env) : Env :=
  match timer e with
  | Armed callback => fst (exec_block callback (with_timer Fired e))
  | _ => e
  end.

(** What the executor of an [AbortablePromise] does with the functions
    it is handed, besides registering callbacks. *)
Inductive ExecStmt : Type :=
| Do (c : Stmt)
| SetTimeout (callback : list Stmt).

Definition exec_call (c : ExecStmt) (e : Env) : Env * option Rejection :=
  match c with
  | Do c => exec_stmt c e
  | SetTimeout callback => (setTimeout callback e, None)
  end.

Fixpoint exec_calls (body : list ExecStmt) (e : Env)
  : Env * option Rejection :=
  match body with
  | [] => (e, None)
  | c :: rest =>
      match exec_call c e with
      | (e', Some x) => (e', Some x)
      | (e', None) => exec_calls rest e'
      end
  end.

(** [new Promise((resolve, reject) => { ... executor(resolve, reject) })]:
    an exception thrown by the executor rejects the promise. *)
Definition run_executor (executor : list ExecStmt) (e : Env) : Env :=
  match exec_calls executor e with
  | (e', Some x) => with_promise (reject x (promise e')) e'
  | (e', None) => e'
  end.

(** The cells when the object is created. *)
Definition initial_env : Env :=
  {| promise := Pending; timer := NoTimer; console := [] |}.
End Platform.

Arguments Promise : clear implicits.
Arguments Stmt : clear implicits.
Arguments Timer : clear implicits.
Arguments Env : clear implicits.
Arguments ExecStmt : clear implicits.

(** ** Runs and histories

    An operation is driven by the events the run loop delivers to it.
    [run] is the state after a sequence of events, [history] the
    successive states of the wrapped promise. *)
Section Runs.
Context {T State Event : Type}.
Variable step : Event -> State -> State.
Variable view : State -> Promise T.

Definition run (evs : list Event) (s : State) : State :=
  fold_left (fun s ev => step ev s) evs s.

End Runs.



(** ** The hook draft (src/index.ts, lines 1-117) *)
Module Hook.
Section Class.
Context {T : Type}.

(** The private fields [#abortReason], [#onCancel] and (inside
    [env]) [#promise].  [hookCalls] counts the calls of a registered
    cancel function and [catchers] the handlers [abort] attaches with
    [this.#promise.catch(() => {})]; neither is read by the code. *)
Record State : Type := {
  abortReason : option string;
  onCancel : option (list (Stmt T));
  env : Env T;
  hookCalls : nat;
  catchers : nat
}.

Definition with_env (e : Env T) (s : State) : State :=
  {| abortReason := abortReason s; onCancel := onCancel s; env := e;
     hookCalls := hookCalls s; catchers := catchers s |}.

Definition with_onCancel (f : option (list (Stmt T))) (s : State) : State :=
  {| abortReason := abortReason s; onCancel := f; env := env s;
     hookCalls := hookCalls s; catchers := catchers s |}.

(** What the executor may do: the shared statements, and
    [onCancel(cancelFn)], which stores the callback (line 24). *)
Inductive Call : Type :=
| Plain (c : ExecStmt T)
| OnCancel (cancelFn : list (Stmt T)).

Definition call (c : Call) (s : State) : State * option Rejection :=
  match c with
  | Plain c =>
      let (e, exn) := exec_call c (env s) in (with_env e s, exn)
  | OnCancel cancelFn => (with_onCancel (Some cancelFn) s, None)
  end.

Fixpoint calls (body : list Call) (s : State) : State * option Rejection :=
  match body with
  | [] => (s, None)
  | c :: rest =>
      match call c s with
      | (s', Some x) => (s', Some x)
      | (s', None) => calls rest s'
      end
  end.

(** The object before the executor runs. *)
Definition blank : State :=
  {| abortReason := None; onCancel := None;
     env := initial_env;
     hookCalls := 0; catchers := 0 |}.

(** [constructor(executor)], lines 15-27: the executor runs inside
    the promise constructor, which turns an exception thrown by it
    into a rejection. *)
Definition new_AbortablePromise (executor : list Call) : State :=
  match calls executor blank with
  | (s, Some x) => with_env (with_promise (reject x (promise (env s))) (env s)) s
  | (s, None) => s
  end.

(** Lines 54-55 of [abort]. *)
Definition record_reason (reason : string) (s : State) : State :=
  {| abortReason := Some reason; onCancel := onCancel s; env := env s;
     hookCalls := hookCalls s; catchers := S (catchers s) |}.

(** [abort(reason = 'Promise was aborted.')], lines 48-56.  The
    second component is the exception that escapes the call: one
    thrown by the cancel function skips the rest of the method. *)
Definition abort (reason : option string) (s : State)
  : State * option Rejection :=
  let reason := or_default reason in
  match onCancel s with
  | Some cancelFn =>
      let (e, exn) := exec_block cancelFn (env s) in
      let s1 :=
        {| abortReason := abortReason s; onCancel := onCancel s; env := e;
           hookCalls := S (hookCalls s); catchers := catchers s |} in
      match exn with
      | Some x => (s1, Some x)
      | None => (record_reason reason (with_onCancel None s1), None)
      end
  | None => (record_reason reason s, None)
  end.

(** Events after construction: the executor's asynchronous
    continuation uses one of its functions, the timer elapses, or the
    consumer calls [abort].  An exception thrown in an asynchronous
    callback does not reach the promise. *)
Inductive Event : Type :=
| Producer (c : Call)
| Elapse
| Abort (reason : option string).

Definition step (ev : Event) (s : State) : State :=
  match ev with
  | Producer c => fst (call c s)
  | Elapse => with_env (timer_elapses (env s)) s
  | Abort reason => fst (abort reason s)
  end.

Definition state_of (s : State) : Promise T := promise (env s).
End Class.

Arguments State : clear implicits.
Arguments Call : clear implicits.
Arguments Event : clear implicits.

(** The body of [operation], lines 76-91, once its [await] is over:
    [resolve(bleData)] when the awaited BLE call produced [bleData], the
    [catch] branch when it failed with [error]. *)
Definition operation (awaited : BleData + string) : Stmt BleData :=
  match awaited with
  | inl bleData => CallResolve bleData
  | inr error => CallReject (OPERATION_ERROR error)
  end.

(** The callback of the simulated BLE timer (lines 79-82); its [res]
    ends the [await] of [operation], whose continuation is run with it. *)
Definition ble_finished (testType : TestType) : list (Stmt BleData) :=
  [ConsoleLog "BLE operation finished";
   operation (inl {| data := 50; testType := testType |})].

(** The cancel function registered by [Ble.sendRequest], lines 70-74. *)
Definition ble_cancel : list (Stmt BleData) :=
  [ClearTimeout;
   ConsoleLog "BLE operation cancelled";
   CallReject (AbortError "Promise was aborted.")].

(** [Ble.sendRequest(testType)], lines 66-95. *)
Definition sendRequest (testType : TestType) : State BleData :=
  new_AbortablePromise
    [OnCancel ble_cancel; Plain (SetTimeout (ble_finished testType))].

(** The [catch] branch of [operation] (lines 85-90) as an event: the
    awaited BLE call fails with [error].  The timer of the shipped
    producer never makes it fail; the event stands for a BLE call that
    can. *)
Definition operation_failed (error : string) : Event BleData :=
  Producer (Plain (Do (operation (inr error)))).
End Hook.

(** ** The controller draft (src/unnamed/part_000; src/index.ts, lines 118-243) *)
Module Controller.
Section Class.
Context {T : Type}.

(** The listeners of the private controller's signal: the one the
    constructor installs (lines 24-26 of part_000, 141-143 of
    index.ts) and those added through the [abortSignal] getter
    (index.ts, lines 175-177). *)
Inductive Listener : Type :=
| RejectOnAbort
| OnAbort (body : list (Stmt T)).

(** [#abortReason], the controller's signal ([aborted] flag and
    listeners in registration order) and [#promise] (inside [env]).
    [fired] logs the listener calls, oldest first; the code does not
    read it. *)
Record State : Type := {
  abortReason : option string;
  aborted : bool;
  listeners : list Listener;
  env : Env T;
  fired : list Listener
}.

Definition with_env (e : Env T) (s : State) : State :=
  {| abortReason := abortReason s; aborted := aborted s;
     listeners := listeners s; env := e; fired := fired s |}.

Definition with_abortReason (r : option string) (s : State) : State :=
  {| abortReason := r; aborted := aborted s;
     listeners := listeners s; env := env s; fired := fired s |}.

Definition with_aborted (b : bool) (s : State) : State :=
  {| abortReason := abortReason s; aborted := b;
     listeners := listeners s; env := env s; fired := fired s |}.

(** [signal.addEventListener('abort', l)]; every registration in the
    sources passes a fresh arrow function, so none is a duplicate. *)
Definition addEventListener (l : Listener) (s : State) : State :=
  {| abortReason := abortReason s; aborted := aborted s;
     listeners := listeners s ++ [l]; env := env s; fired := fired s |}.

(** One listener call.  [RejectOnAbort] is
    [reject(new AbortError(this.#abortReason ?? 'Promise was aborted.'))];
    an exception thrown by a listener is reported by the event
    dispatcher and not rethrown. *)
Definition invoke (l : Listener) (s : State) : State :=
  let e :=
    match l with
    | RejectOnAbort =>
        with_promise
          (reject (AbortError (or_default (abortReason s)))
                  (promise (env s)))
          (env s)
    | OnAbort body => fst (exec_block body (env s))
    end in
  {| abortReason := abortReason s; aborted := aborted s;
     listeners := listeners s; env := e; fired := fired s ++ [l] |}.

Definition dispatch (ls : list Listener) (s : State) : State :=
  fold_left (fun s l => invoke l s) ls s.

(** [AbortController.prototype.abort()]: nothing on an aborted
    signal; otherwise the flag is set and the event dispatched. *)
Definition controller_abort (s : State) : State :=
  if aborted s then s
  else dispatch (listeners s) (with_aborted true s).

(** [abort(reason = 'Promise was aborted.')], lines 51-56 of
    part_000 and 168-173 of index.ts. *)
Definition abort (reason : option string) (s : State) : State :=
  if negb (aborted s)
  then controller_abort (with_abortReason (Some (or_default reason)) s)
  else s.

Definition blank : State :=
  {| abortReason := None; aborted := false; listeners := [];
     env := initial_env; fired := [] |}.

(** [constructor(executor)]: the rejecting listener is installed
    before the executor runs. *)
Definition new_AbortablePromise (executor : list (ExecStmt T)) : State :=
  let s := addEventListener RejectOnAbort blank in
  with_env (run_executor executor (env s)) s.

Inductive Event : Type :=
| Producer (c : ExecStmt T)
| Elapse
| Listen (body : list (Stmt T))
| Abort (reason : option string).

Definition step (ev : Event) (s : State) : State :=
  match ev with
  | Producer c => with_env (fst (exec_call c (env s))) s
  | Elapse => with_env (timer_elapses (env s)) s
  | Listen body => addEventListener (OnAbort body) s
  | Abort reason => abort reason s
  end.

Definition state_of (s : State) : Promise T := promise (env s).
End Class.

Arguments State : clear implicits.
Arguments Listener : clear implicits.
Arguments Event : clear implicits.

(** The body of [operation], lines 68-85 of part_000, once its [await]
    is over. *)
Definition operation (awaited : BleData + string) : Stmt BleData :=
  match awaited with
  | inl bleData => CallResolve bleData
  | inr error => CallReject (OPERATION_ERROR error)
  end.

(** The timer callback of part_000, lines 72-75, with the continuation
    of [operation] that its [res] releases. *)
Definition ble_finished (testType : TestType) : list (Stmt BleData) :=
  [ConsoleLog "end of BLE operation";
   operation (inl {| data := 50; testType := testType |})].

(** [Ble.sendRequest(testType)] of part_000, lines 66-89. *)
Definition sendRequest (testType : TestType) : State BleData :=
  new_AbortablePromise [SetTimeout (ble_finished testType)].

(** The [catch] branch of [operation] (lines 79-84 of part_000) as an event: the
    awaited BLE call fails with [error].  The timer of the shipped
    producer never makes it fail; the event stands for a BLE call that
    can. *)
Definition operation_failed (error : string) : Event BleData :=
  Producer (Do (operation (inr error))).
End Controller.

(** ** The external-signal draft (src/index.ts, lines 244-375) *)
Module External.
Section Class.
Context {T : Type}.

(** A listener that other code registered on the signal before the
    operation was created: what it runs when the signal aborts (it may
    reach the operation through variables the executor writes to), and
    whether it calls [event.stopImmediatePropagation()], which keeps
    the listeners registered after it from being called. *)
Record Earlier : Type := {
  earlier_label : string;
  earlier_body : list (Stmt T);
  earlier_stops : bool
}.

(** The [AbortSignal] handed to the constructor: its flag, the reason
    its controller was aborted with, and the listeners registered on it
    so far. *)
Record AbortSignal : Type := {
  signal_aborted : bool;
  signal_reason : option string;
  signal_listeners : list Earlier
}.

(** Listeners of the supplied signal: earlier ones, the forwarding
    listener of the constructor (lines 273-278), and the ones added
    after the operation was created (such as lines 346-350). *)
Inductive SignalListener : Type :=
| Foreign (listener : Earlier)
| Forward
| OnAbort (body : list (Stmt T)).

(** Listeners of the private controller's signal (lines 281-283);
    the draft has no getter for it. *)
Inductive ControllerListener : Type :=
| RejectOnAbort.

Inductive Call : Type :=
| OnSignal (l : SignalListener)
| OnController (l : ControllerListener).

(** The supplied (parent) signal, then the fields of the class:
    [#abortReason], the private (child) controller's signal and
    [#promise] inside [env].  [fired] logs listener calls. *)
Record State : Type := {
  aborted : bool;
  reason : option string;
  listeners : list SignalListener;
  abortReason : option string;
  child_aborted : bool;
  child_listeners : list ControllerListener;
  env : Env T;
  fired : list Call
}.

Definition with_env (e : Env T) (s : State) : State :=
  {| aborted := aborted s; reason := reason s; listeners := listeners s;
     abortReason := abortReason s; child_aborted := child_aborted s;
     child_listeners := child_listeners s; env := e; fired := fired s |}.

Definition log (c : Call) (s : State) : State :=
  {| aborted := aborted s; reason := reason s; listeners := listeners s;
     abortReason := abortReason s; child_aborted := child_aborted s;
     child_listeners := child_listeners s; env := env s;
     fired := fired s ++ [c] |}.

(** The listener of lines 281-283. *)
Definition invoke_child (l : ControllerListener) (s : State) : State :=
  match l with
  | RejectOnAbort =>
      with_env
        (with_promise
           (reject (AbortError (or_default (abortReason s)))
                   (promise (env s)))
           (env s))
        (log (OnController l) s)
  end.

(** [this.#abortController.abort()]. *)
Definition controller_abort (s : State) : State :=
  if child_aborted s then s
  else
    fold_left (fun s l => invoke_child l s) (child_listeners s)
      {| aborted := aborted s; reason := reason s;
         listeners := listeners s; abortReason := abortReason s;
         child_aborted := true; child_listeners := child_listeners s;
         env := env s; fired := fired s |}.

(** The body of the forwarding listener, lines 274-277. *)
Definition forward (s : State) : State :=
  if negb (child_aborted s)
  then
    controller_abort
      {| aborted := aborted s; reason := reason s;
         listeners := listeners s;
         abortReason := Some "Promise was aborted.";
         child_aborted := child_aborted s;
         child_listeners := child_listeners s;
         env := env s; fired := fired s |}
  else s.

Definition invoke (l : SignalListener) (s : State) : State :=
  let s := log (OnSignal l) s in
  match l with
  | Foreign listener =>
      with_env (fst (exec_block (earlier_body listener) (env s))) s
  | Forward => forward s
  | OnAbort body => with_env (fst (exec_block body (env s))) s
  end.

Definition stops_propagation (l : SignalListener) : bool :=
  match l with
  | Foreign listener => earlier_stops listener
  | _ => false
  end.

(** The abort event goes through the listeners in registration order
    and ends at the first one that stops its propagation. *)
Fixpoint dispatch (ls : list SignalListener) (s : State) : State :=
  match ls with
  | [] => s
  | l :: rest =>
      if stops_propagation l then invoke l s
      else dispatch rest (invoke l s)
  end.

(** [abortController.abort(reason)] on the controller that owns the
    supplied signal. *)
Definition signal_abort (r : option string) (s : State) : State :=
  if aborted s then s
  else
    dispatch (listeners s)
      {| aborted := true; reason := r; listeners := listeners s;
         abortReason := abortReason s; child_aborted := child_aborted s;
         child_listeners := child_listeners s; env := env s;
         fired := fired s |}.

(** [signal.addEventListener('abort', l)]. *)
Definition addEventListener (l : SignalListener) (s : State) : State :=
  {| aborted := aborted s; reason := reason s;
     listeners := listeners s ++ [l];
     abortReason := abortReason s; child_aborted := child_aborted s;
     child_listeners := child_listeners s; env := env s;
     fired := fired s |}.

Definition child_addEventListener (l : ControllerListener) (s : State)
  : State :=
  {| aborted := aborted s; reason := reason s; listeners := listeners s;
     abortReason := abortReason s; child_aborted := child_aborted s;
     child_listeners := child_listeners s ++ [l]; env := env s;
     fired := fired s |}.

(** Line 265: a new private controller next to the supplied signal. *)
Definition blank (signal : AbortSignal) : State :=
  {| aborted := signal_aborted signal; reason := signal_reason signal;
     listeners := map Foreign (signal_listeners signal);
     abortReason := None; child_aborted := false; child_listeners := [];
     env := initial_env; fired := [] |}.

(** [constructor(signal, executor)], lines 258-287. *)
Definition new_AbortablePromise
  (signal : AbortSignal) (executor : list (ExecStmt T)) : State :=
  let s := blank signal in
  let s := if aborted s then controller_abort s else s in
  let s := addEventListener Forward s in
  let s := child_addEventListener RejectOnAbort s in
  with_env (run_executor executor (env s)) s.

Inductive Event : Type :=
| Producer (c : ExecStmt T)
| Elapse
| Listen (body : list (Stmt T))
| SignalAbort (reason : option string).

Definition step (ev : Event) (s : State) : State :=
  match ev with
  | Producer c => with_env (fst (exec_call c (env s))) s
  | Elapse => with_env (timer_elapses (env s)) s
  | Listen body => addEventListener (OnAbort body) s
  | SignalAbort r => signal_abort r s
  end.

Definition state_of (s : State) : Promise T := promise (env s).

(** Events that come from the producer rather than from a
    cancellation request or a listener registration. *)
Definition from_producer (ev : Event) : bool :=
  match ev with
  | Producer _ | Elapse => true
  | Listen _ | SignalAbort _ => false
  end.
End Class.

Arguments State : clear implicits.
Arguments SignalListener : clear implicits.
Arguments Call : clear implicits.
Arguments Event : clear implicits.

(** The body of [operation], lines 322-339, once its [await] is over. *)
Definition operation (awaited : BleData + string) : Stmt BleData :=
  match awaited with
  | inl bleData => CallResolve bleData
  | inr error => CallReject (OPERATION_ERROR error)
  end.

(** The timer callback, lines 326-329, with the continuation of
    [operation] that its [res] releases. *)
Definition ble_finished (testType : TestType) : list (Stmt BleData) :=
  [ConsoleLog "end of BLE operation";
   operation (inl {| data := 50; testType := testType |})].

(** The listener of lines 346-350. *)
Definition ble_cleanup : list (Stmt BleData) :=
  [ClearTimeout; ConsoleLog "BLE operation cancelled"].

(** [Ble.sendRequest(testType, abortController)], lines 316-353, on
    the signal of the given controller. *)
Definition sendRequest (testType : TestType) (signal : AbortSignal)
  : State BleData :=
  addEventListener (OnAbort ble_cleanup)
    (new_AbortablePromise signal [SetTimeout (ble_finished testType)]).

(** The [catch] branch of [operation] (lines 333-338) as an event: the
    awaited BLE call fails with [error].  The timer of the shipped
    producer never makes it fail; the event stands for a BLE call that
    can. *)
Definition operation_failed (error : string) : Event BleData :=
  Producer (Do (operation (inr error))).
End External.

(** ** The BLE producer of src/index.ts, lines 186-222

    The second draft of src/index.ts has the class of part_000 plus the
    [abortSignal] getter (lines 175-177).  Its [Ble.sendRequest] reads
    the constant [abortablePromise] inside the executor, which the
    constructor calls before the constant is initialised. *)
Module Getter.
(** The body of [operation], lines 191-208, once its [await] is over. *)
Definition operation (awaited : BleData + string) : Stmt BleData :=
  match awaited with
  | inl bleData => CallResolve bleData
  | inr error => CallReject (OPERATION_ERROR error)
  end.

(** The timer callback, lines 195-198, with the continuation of
    [operation] that its [res] releases. *)
Definition ble_finished (testType : TestType) : list (Stmt BleData) :=
  [ConsoleLog "end of BLE operation";
   operation (inl {| data := 50; testType := testType |})].

(** The listener of lines 213-217. *)
Definition ble_cleanup : list (Stmt BleData) :=
  [ClearTimeout; ConsoleLog "BLE operation cancelled"].

(** What reading [abortablePromise] on line 213 throws: the executor
    runs inside [new AbortablePromise(...)], whose value the constant
    has not received yet.  The text is the engine's. *)
Definition uninitialised : Rejection :=
  Thrown "Cannot access 'abortablePromise' before initialization".

(** [Ble.sendRequest(testType)], lines 187-221: [operation()] arms the
    timer, then line 213 throws before [addEventListener] is reached. *)
Definition sendRequest (testType : TestType) : Controller.State BleData :=
  Controller.new_AbortablePromise
    [SetTimeout (ble_finished testType); Do (Throw uninitialised)].
End Getter.

(** ** The consumers

    Every draft ends with the same [app]: it sends a request, arms a
    1000 ms timer that cancels it, awaits the request and prints one
    line.  The BLE timer runs for 3000 ms, so the cancellation is
    delivered first. *)

(** The line [app] prints, by console method and template. *)
Inductive ConsoleCall : Type :=
| log_Response (response : BleData)
| warn_Aborted (message : option string)
| error_Error (message : option string).

(** [error.message]: an [AbortError] and a thrown error carry one, the
    object literal [{ errorType, description }] has no such property. *)
Definition message (error : Rejection) : option string :=
  match error with
  | AbortError m => Some m
  | OPERATION_ERROR _ => None
  | Thrown what => Some what
  end.

(** The [try]/[catch] around [await request] (src/index.ts, lines
    100-114, 226-240, 358-373; part_000, lines 94-108); nothing is
    printed while the request is pending. *)
Definition report (request : Promise BleData) : option ConsoleCall :=
  match request with
  | Pending => None
  | Fulfilled response => Some (log_Response response)
  | Rejected error =>
      if is_AbortError error
      then Some (warn_Aborted (message error))
      else Some (error_Error (message error))
  end.

Module HookApp.
(** [app], src/index.ts lines 99-115. *)
Definition app : option ConsoleCall :=
  report
    (Hook.state_of
       (run Hook.step [Hook.Abort (Some "User initiated abort."); Hook.Elapse]
          (Hook.sendRequest BLOOD_PRESSURE))).
End HookApp.

Module ControllerApp.
(** [app], part_000 lines 93-109. *)
Definition app : option ConsoleCall :=
  report
    (Controller.state_of
       (run Controller.step
          [Controller.Abort (Some "User initiated abort."); Controller.Elapse]
          (Controller.sendRequest BLOOD_PRESSURE))).
End ControllerApp.

Module GetterApp.
(** [app], src/index.ts lines 225-241. *)
Definition app : option ConsoleCall :=
  report
    (Controller.state_of
       (run Controller.step
          [Controller.Abort (Some "User initiated abort."); Controller.Elapse]
          (Getter.sendRequest BLOOD_PRESSURE))).
End GetterApp.

Module ExternalApp.
(** The signal of [new AbortController()], line 360. *)
Definition fresh_signal : @External.AbortSignal BleData :=
  {| External.signal_aborted := false; External.signal_reason := None;
     External.signal_listeners := [] |}.

(** [app], src/index.ts lines 357-374; it aborts without a reason. *)
Definition app : option ConsoleCall :=
  report
    (External.state_of
       (run External.step [External.SignalAbort None; External.Elapse]
          (External.sendRequest BLOOD_PRESSURE fresh_signal))).
End ExternalApp.

(** ** Vocabulary of the properties *)

(** States of the controller draft: the constructor's listener is the
    first one of the signal, and a signal that has aborted has settled
    the promise. *)
Definition controller_inv {T} (s : Controller.State T) : Prop :=
  (exists rest, Controller.listeners s = Controller.RejectOnAbort :: rest) /\
  (Controller.aborted s = true -> Controller.state_of s <> Pending).

(** No listener is called before the signal aborts. *)
Definition controller_quiet {T} (s : Controller.State T) : Prop :=
  Controller.aborted s = false -> Controller.fired s = [].


(** Executor calls and events of the hook draft that register a cancel
    function. *)
Definition registers {T} (c : Hook.Call T) : bool :=
  match c with
  | Hook.OnCancel _ => true
  | Hook.Plain _ => false
  end.

Definition event_registers {T} (ev : Hook.Event T) : bool :=
  match ev with
  | Hook.Producer c => registers c
  | _ => false
  end.

(** Closure statements that settle the promise. *)
Definition settles {T} (c : Stmt T) : bool :=
  match c with
  | CallResolve _ | CallReject _ => true
  | _ => false
  end.

(** Earlier listeners of a supplied signal that let the abort event
    reach the listeners after them, and those that moreover leave the
    operation's promise alone. *)
Definition passes_on {T} (listener : @External.Earlier T) : bool :=
  negb (External.earlier_stops listener).

Definition inert {T} (listener : @External.Earlier T) : bool :=
  negb (External.earlier_stops listener)
  && forallb (fun c => negb (settles c)) (External.earlier_body listener).

(** States of the external-signal draft built on a signal with the
    listeners [earlier]: the forwarding listener sits on the supplied
    signal after them, the private signal carries the rejecting
    listener only, and the private controller has aborted exactly when
    the supplied signal has. *)
Definition external_inv {T} (earlier : list (@External.Earlier T))
  (s : External.State T) : Prop :=
  (exists later,
      External.listeners s
      = map External.Foreign earlier ++ External.Forward :: later) /\
  External.child_listeners s = [External.RejectOnAbort] /\
  External.child_aborted s = External.aborted s.

(** What the supplied signal looks like from outside. *)
Definition parent_view {T} (s : External.State T)
  : bool * option string * list (External.SignalListener T) :=
  (External.aborted s, External.reason s, External.listeners s).

(** Two states with the same supplied signal and the same listeners
    on the private one. *)
Definition same_wiring {T} (s s' : External.State T) : Prop :=
  External.aborted s' = External.aborted s /\
  External.reason s' = External.reason s /\
  External.listeners s' = External.listeners s /\
  External.child_listeners s' = External.child_listeners s.

(** Producers that never reject: closure statements that call
    [reject], executor statements that call it, throw, or arm a timer
    whose callback calls it, and events that deliver such a statement. *)
Definition calls_reject {T} (c : Stmt T) : bool :=
  match c with
  | CallReject _ => true
  | _ => false
  end.

Definition may_reject {T} (c : ExecStmt T) : bool :=
  match c with
  | Do (Throw _) => true
  | Do c => calls_reject c
  | SetTimeout callback => existsb calls_reject callback
  end.

Definition event_may_reject {T} (ev : External.Event T) : bool :=
  match ev with
  | External.Producer c => may_reject c
  | _ => false
  end.

(** Cells whose promise is not rejected and whose armed timer cannot
    reject it. *)
Definition calm {T} (e : Env T) : Prop :=
  (forall r, promise e <> Rejected r) /\
  match timer e with
  | Armed callback => existsb calls_reject callback = false
  | _ => True
  end.

(** Events of the hook draft by origin. *)
Definition is_abort {T} (ev : Hook.Event T) : bool :=
  match ev with
  | Hook.Abort _ => true
  | _ => false
  end.

Definition hook_from_producer {T} (ev : Hook.Event T) : bool :=
  match ev with
  | Hook.Producer _ => true
  | _ => false
  end.

(** Listener registrations through the [abortSignal] getter, which
    part_000 does not have. *)
Definition listens {T} (ev : Controller.Event T) : bool :=
  match ev with
  | Controller.Listen _ => true
  | _ => false
  end.





(** * Properties *)

(** ** The platform: a settled promise is never overwritten *)
Section PlatformFacts.
Context {T : Type}.
Implicit Types (e : Env T) (p : Promise T).

Lemma resolve_settled v p : p <> Pending -> resolve v p = p.
Proof. destruct p; simpl; congruence. Qed.

Lemma reject_settled r p : p <> Pending -> reject r p = p.
Proof. destruct p; simpl; congruence. Qed.

Lemma exec_stmt_settled c e :
  promise e <> Pending -> promise (fst (exec_stmt c e)) = promise e.
Proof.
  intros H; destruct c; simpl; auto using resolve_settled, reject_settled.
Qed.

Lemma exec_block_settled body : forall e,
  promise e <> Pending -> promise (fst (exec_block body e)) = promise e.
Proof.
  induction body as [|c rest IH]; intros e H; simpl; [reflexivity|].
  pose proof (exec_stmt_settled c e H) as Hc.
  destruct (exec_stmt c e) as [e' [x|]]; simpl in *; [exact Hc|].
  rewrite IH; congruence.
Qed.

Lemma exec_call_settled c e :
  promise e <> Pending -> promise (fst (exec_call c e)) = promise e.
Proof.
  intros H; destruct c; simpl; [apply exec_stmt_settled; exact H | reflexivity].
Qed.

Lemma exec_calls_settled body : forall e,
  promise e <> Pending -> promise (fst (exec_calls body e)) = promise e.
Proof.
  induction body as [|c rest IH]; intros e H; simpl; [reflexivity|].
  pose proof (exec_call_settled c e H) as Hc.
  destruct (exec_call c e) as [e' [x|]]; simpl in *; [exact Hc|].
  rewrite IH; congruence.
Qed.

Lemma run_executor_settled executor e :
  promise e <> Pending -> promise (run_executor executor e) = promise e.
Proof.
  intros H; unfold run_executor.
  pose proof (exec_calls_settled executor e H) as Hc.
  destruct (exec_calls executor e) as [e' [x|]]; simpl in *; [|exact Hc].
  rewrite reject_settled; congruence.
Qed.

Lemma timer_elapses_settled e :
  promise e <> Pending -> promise (timer_elapses e) = promise e.
Proof.
  intros H; unfold timer_elapses; destruct (timer e); try reflexivity.
  rewrite exec_block_settled; simpl; auto.
Qed.
End PlatformFacts.

(** ** Histories of a machine whose steps keep a settled promise *)
Section RunFacts.
Context {T State Event : Type}.
Variable step : Event -> State -> State.
Variable view : State -> Promise T.
Hypothesis step_settled :
  forall ev s, view s <> Pending -> view (step ev s) = view s.

Lemma run_settled evs : forall s,
  view s <> Pending -> view (run step evs s) = view s.
Proof.
  induction evs as [|ev rest IH]; intros s H; simpl; [reflexivity|].
  fold (run step rest (step ev s)).
  rewrite IH; rewrite step_settled; auto.
Qed.





End RunFacts.

(** ** Each draft keeps a settled promise *)
Lemma hook_abort_settled {T} reason (s : Hook.State T) :
  Hook.state_of s <> Pending ->
  Hook.state_of (fst (Hook.abort reason s)) = Hook.state_of s.
Proof.
  unfold Hook.state_of, Hook.abort; intros H.
  destruct (Hook.onCancel s) as [f|]; [|reflexivity].
  pose proof (exec_block_settled f (Hook.env s) H) as Hf.
  destruct (exec_block f (Hook.env s)) as [e [x|]]; exact Hf.
Qed.

Lemma hook_step_settled {T} ev (s : Hook.State T) :
  Hook.state_of s <> Pending -> Hook.state_of (Hook.step ev s) = Hook.state_of s.
Proof.
  intros H; destruct ev as [c| |r]; simpl.
  - destruct c as [c|f]; simpl; [|reflexivity].
    pose proof (exec_call_settled c (Hook.env s) H) as Hc.
    destruct (exec_call c (Hook.env s)) as [e x]; exact Hc.
  - apply timer_elapses_settled; exact H.
  - apply hook_abort_settled; exact H.
Qed.

Lemma controller_invoke_settled {T} l (s : Controller.State T) :
  Controller.state_of s <> Pending ->
  Controller.state_of (Controller.invoke l s) = Controller.state_of s.
Proof.
  unfold Controller.state_of; intros H; destruct l; simpl.
  - apply reject_settled; exact H.
  - apply exec_block_settled; exact H.
Qed.

Lemma controller_dispatch_settled {T} ls : forall (s : Controller.State T),
  Controller.state_of s <> Pending ->
  Controller.state_of (Controller.dispatch ls s) = Controller.state_of s.
Proof.
  induction ls as [|l rest IH]; intros s H; simpl; [reflexivity|].
  fold (Controller.dispatch rest (Controller.invoke l s)).
  rewrite IH; rewrite controller_invoke_settled; auto.
Qed.

Lemma controller_abort_settled {T} reason (s : Controller.State T) :
  Controller.state_of s <> Pending ->
  Controller.state_of (Controller.abort reason s) = Controller.state_of s.
Proof.
  intros H; unfold Controller.abort, Controller.controller_abort; simpl.
  destruct (Controller.aborted s); simpl; [reflexivity|].
  rewrite controller_dispatch_settled; auto.
Qed.

Lemma controller_step_settled {T} ev (s : Controller.State T) :
  Controller.state_of s <> Pending ->
  Controller.state_of (Controller.step ev s) = Controller.state_of s.
Proof.
  intros H; destruct ev as [c| |body|r]; simpl.
  - apply exec_call_settled; exact H.
  - apply timer_elapses_settled; exact H.
  - reflexivity.
  - apply controller_abort_settled; exact H.
Qed.

Lemma external_invoke_child_settled {T} l (s : External.State T) :
  External.state_of s <> Pending ->
  External.state_of (External.invoke_child l s) = External.state_of s.
Proof.
  unfold External.state_of; intros H; destruct l; simpl.
  apply reject_settled; exact H.
Qed.

Lemma external_child_dispatch_settled {T} ls : forall (s : External.State T),
  External.state_of s <> Pending ->
  External.state_of (fold_left (fun s l => External.invoke_child l s) ls s)
  = External.state_of s.
Proof.
  induction ls as [|l rest IH]; intros s H; simpl; [reflexivity|].
  rewrite IH; rewrite external_invoke_child_settled; auto.
Qed.

Lemma external_controller_abort_settled {T} (s : External.State T) :
  External.state_of s <> Pending ->
  External.state_of (External.controller_abort s) = External.state_of s.
Proof.
  intros H; unfold External.controller_abort.
  destruct (External.child_aborted s); [reflexivity|].
  rewrite external_child_dispatch_settled; [reflexivity | exact H].
Qed.

Lemma external_invoke_settled {T} l (s : External.State T) :
  External.state_of s <> Pending ->
  External.state_of (External.invoke l s) = External.state_of s.
Proof.
  intros H; destruct l; simpl.
  - unfold External.state_of; simpl. apply exec_block_settled; exact H.
  - unfold External.forward; simpl.
    destruct (External.child_aborted s); simpl; [reflexivity|].
    rewrite external_controller_abort_settled; auto.
  - unfold External.state_of; simpl. apply exec_block_settled; exact H.
Qed.

Lemma external_dispatch_settled {T} ls : forall (s : External.State T),
  External.state_of s <> Pending ->
  External.state_of (External.dispatch ls s) = External.state_of s.
Proof.
  induction ls as [|l rest IH]; intros s H; simpl; [reflexivity|].
  destruct (External.stops_propagation l).
  - apply external_invoke_settled; exact H.
  - rewrite IH; rewrite external_invoke_settled; auto.
Qed.

Lemma external_signal_abort_settled {T} r (s : External.State T) :
  External.state_of s <> Pending ->
  External.state_of (External.signal_abort r s) = External.state_of s.
Proof.
  intros H; unfold External.signal_abort.
  destruct (External.aborted s); [reflexivity|].
  rewrite external_dispatch_settled; [reflexivity | exact H].
Qed.

Lemma external_step_settled {T} ev (s : External.State T) :
  External.state_of s <> Pending ->
  External.state_of (External.step ev s) = External.state_of s.
Proof.
  intros H; destruct ev as [c| |body|r]; simpl.
  - apply exec_call_settled; exact H.
  - apply timer_elapses_settled; exact H.
  - reflexivity.
  - apply external_signal_abort_settled; exact H.
Qed.

(** ** The controller draft: what a dispatch leaves alone, and what holds
    of every state an operation can reach *)
Section ControllerFacts.
Context {T : Type}.
Implicit Types (s : Controller.State T) (l : Controller.Listener T).

Lemma controller_dispatch_frame ls : forall s,
  Controller.abortReason (Controller.dispatch ls s) = Controller.abortReason s /\
  Controller.aborted (Controller.dispatch ls s) = Controller.aborted s /\
  Controller.listeners (Controller.dispatch ls s) = Controller.listeners s /\
  Controller.fired (Controller.dispatch ls s) = Controller.fired s ++ ls.
Proof.
  induction ls as [|l rest IH]; intros s; simpl.
  - rewrite app_nil_r; auto.
  - fold (Controller.dispatch rest (Controller.invoke l s)).
    destruct (IH (Controller.invoke l s)) as (H1 & H2 & H3 & H4).
    rewrite H1, H2, H3, H4; simpl.
    rewrite <- app_assoc; auto.
Qed.

Lemma controller_abort_pending reason s :
  controller_inv s ->
  Controller.state_of s = Pending ->
  Controller.state_of (Controller.abort reason s)
    = Rejected (AbortError (or_default reason)) /\
  Controller.abortReason (Controller.abort reason s)
    = Some (or_default reason) /\
  Controller.aborted (Controller.abort reason s) = true /\
  Controller.fired (Controller.abort reason s)
    = Controller.fired s ++ Controller.listeners s.
Proof.
  intros [[rest Hl] Hab] Hp.
  unfold Controller.abort, Controller.controller_abort; simpl.
  destruct (Controller.aborted s) eqn:Ea.
  - exfalso; apply Hab; auto.
  - simpl. rewrite Hl; simpl.
    match goal with
    | |- context [Controller.dispatch rest ?s1] => set (s' := s1)
    end.
    assert (Hs' : Controller.state_of s' = Rejected (AbortError (or_default reason))).
    { unfold s', Controller.state_of in *; simpl. rewrite Hp; reflexivity. }
    destruct (controller_dispatch_frame rest s') as (H1 & H2 & H3 & H4).
    rewrite H1, H2, H4.
    rewrite controller_dispatch_settled by (rewrite Hs'; discriminate).
    rewrite Hs'. unfold s'; simpl. rewrite <- app_assoc. auto.
Qed.

Lemma controller_abort_listeners reason s :
  Controller.listeners (Controller.abort reason s) = Controller.listeners s.
Proof.
  unfold Controller.abort, Controller.controller_abort; simpl.
  destruct (Controller.aborted s); simpl; [reflexivity|].
  destruct (controller_dispatch_frame (Controller.listeners s)
              (Controller.with_aborted true
                 (Controller.with_abortReason (Some (or_default reason)) s)))
    as (_ & _ & H & _).
  exact H.
Qed.

Lemma controller_abort_inv reason s :
  controller_inv s -> controller_inv (Controller.abort reason s).
Proof.
  intros Hinv. split.
  - rewrite controller_abort_listeners. apply Hinv.
  - intros _. destruct (Controller.state_of s) eqn:Hp.
    + destruct (controller_abort_pending reason s Hinv Hp) as (H & _).
      rewrite H; discriminate.
    + rewrite controller_abort_settled; congruence.
    + rewrite controller_abort_settled; congruence.
Qed.

Lemma controller_step_inv ev s :
  controller_inv s -> controller_inv (Controller.step ev s).
Proof.
  intros Hinv. destruct ev as [c| |body|r]; simpl.
  - destruct Hinv as [Hl Hab]; split; [exact Hl|].
    simpl; intros Ha. specialize (Hab Ha).
    unfold Controller.state_of in *; simpl.
    rewrite exec_call_settled; auto.
  - destruct Hinv as [Hl Hab]; split; [exact Hl|].
    simpl; intros Ha. specialize (Hab Ha).
    unfold Controller.state_of in *; simpl.
    rewrite timer_elapses_settled; auto.
  - destruct Hinv as [[rest Hl] Hab]; split; [|exact Hab].
    simpl; rewrite Hl; simpl; eauto.
  - apply controller_abort_inv; exact Hinv.
Qed.

Lemma controller_new_inv (executor : list (ExecStmt T)) :
  controller_inv (Controller.new_AbortablePromise executor).
Proof.
  split; simpl; [eauto | discriminate].
Qed.

Lemma controller_run_inv evs : forall s,
  controller_inv s -> controller_inv (run Controller.step evs s).
Proof.
  induction evs as [|ev rest IH]; intros s H; simpl; [exact H|].
  apply IH, controller_step_inv, H.
Qed.

Lemma controller_abort_absorbs r1 r2 s :
  Controller.abort r2 (Controller.abort r1 s) = Controller.abort r1 s.
Proof.
  unfold Controller.abort at 1.
  assert (Ha : Controller.aborted (Controller.abort r1 s) = true).
  { unfold Controller.abort, Controller.controller_abort; simpl.
    destruct (Controller.aborted s) eqn:E; simpl; [exact E|].
    destruct (controller_dispatch_frame (Controller.listeners s)
                (Controller.with_aborted true
                   (Controller.with_abortReason (Some (or_default r1)) s)))
      as (_ & H2 & _).
    rewrite H2; reflexivity. }
  rewrite Ha; reflexivity.
Qed.
End ControllerFacts.

Section ControllerReach.
Context {T : Type}.
Implicit Types (s : Controller.State T).

Lemma controller_aborted_after r s :
  Controller.aborted (Controller.abort r s) = true.
Proof.
  unfold Controller.abort, Controller.controller_abort; simpl.
  destruct (Controller.aborted s) eqn:E; simpl; [exact E|].
  apply controller_dispatch_frame.
Qed.

Lemma controller_run_quiet evs : forall s,
  controller_quiet s -> controller_quiet (run Controller.step evs s).
Proof.
  induction evs as [|ev rest IH]; intros s H; simpl; [exact H|].
  apply IH. destruct ev as [c| |body|r]; try exact H.
  unfold controller_quiet; simpl; intros Hf.
  rewrite controller_aborted_after in Hf. discriminate.
Qed.

(** The controller draft meets the cancellation contract: a request
    that arrives while the promise is pending rejects it with the
    reason of the request, and every listener of the signal is called
    once, in registration order. *)
Lemma controller_abort_before_settlement
  (executor : list (ExecStmt T)) (evs : list (Controller.Event T)) reason :
  let s := run Controller.step evs (Controller.new_AbortablePromise executor) in
  Controller.state_of s = Pending ->
  Controller.state_of (Controller.abort reason s)
    = Rejected (AbortError (or_default reason)) /\
  Controller.abortReason (Controller.abort reason s)
    = Some (or_default reason) /\
  Controller.fired (Controller.abort reason s) = Controller.listeners s.
Proof.
  intros s Hp.
  assert (Hinv : controller_inv s)
    by apply controller_run_inv, controller_new_inv.
  assert (Hq : controller_quiet s).
  { apply controller_run_quiet. intros _; reflexivity. }
  destruct (controller_abort_pending reason s Hinv Hp) as (H1 & H2 & _ & H4).
  repeat split; auto.
  rewrite H4, Hq; [reflexivity|].
  destruct Hinv as [_ Hab].
  destruct (Controller.aborted s); [|reflexivity].
  exfalso; apply Hab; auto.
Qed.
End ControllerReach.

(** ** Runs in which something settles the operation *)
Section Settling.
Context {T State Event : Type}.
Variable step : Event -> State -> State.
Variable view : State -> Promise T.
Variable settling : Event -> bool.
Hypothesis step_settled :
  forall ev s, view s <> Pending -> view (step ev s) = view s.
Hypothesis settling_settles :
  forall ev s, settling ev = true -> view (step ev s) <> Pending.

End Settling.











(** ** The hook draft *)

(** C1, on the hook draft.  The consumer of src/index.ts (lines 99-106)
    sends the BLE request and aborts it with its own reason before the
    timer elapses.  The request was pending; the cancel function runs
    once and the reason is stored, yet the rejection carries the message
    fixed in the cancel function, not the reason of the call.  With an
    executor that registers no cancel function the same call leaves the
    promise pending. *)
Theorem C1_hook_abort_loses_reason :
  let request := Hook.sendRequest BLOOD_PRESSURE in
  let aborted := fst (Hook.abort (Some "User initiated abort.") request) in
  Hook.state_of request = Pending /\
  Hook.state_of aborted = Rejected (AbortError "Promise was aborted.") /\
  Hook.state_of aborted <> Rejected (AbortError "User initiated abort.") /\
  Hook.abortReason aborted = Some "User initiated abort." /\
  Hook.hookCalls aborted = 1 /\
  Hook.state_of
    (fst (Hook.abort (Some "User initiated abort.")
            (Hook.new_AbortablePromise
               [Hook.Plain (SetTimeout (Hook.ble_finished BLOOD_PRESSURE))])))
  = Pending.
Proof.
  cbv zeta. repeat split; try reflexivity.
  vm_compute. discriminate.
Qed.

(** C4, on the hook draft.  Two [abort] calls on the BLE request: the
    cancel function runs once, but the stored reason is the one of the
    second call. *)
Theorem C4_hook_second_reason_stored :
  let once := fst (Hook.abort (Some "first") (Hook.sendRequest BLOOD_PRESSURE)) in
  let twice := fst (Hook.abort (Some "second") once) in
  Hook.abortReason once = Some "first" /\
  Hook.abortReason twice = Some "second" /\
  Hook.abortReason twice <> Hook.abortReason once /\
  Hook.hookCalls twice = 1.
Proof.
  cbv zeta. repeat split; try reflexivity.
  vm_compute. discriminate.
Qed.

(** The same holds from every state of a hook-draft operation: the
    reason stored after a call that returns is the reason of that call. *)
Lemma hook_abort_stores_last_reason {T} r (s : Hook.State T) :
  snd (Hook.abort r s) = None ->
  Hook.abortReason (fst (Hook.abort r s)) = Some (or_default r).
Proof.
  unfold Hook.abort. destruct (Hook.onCancel s) as [f|]; [|reflexivity].
  destruct (exec_block f (Hook.env s)) as [e [x|]]; simpl; [discriminate|reflexivity].
Qed.

(** In the controller draft a second [abort] changes nothing at all. *)
Lemma controller_abort_twice {T}
  (executor : list (ExecStmt T)) (evs : list (Controller.Event T)) r1 r2 :
  let s := run Controller.step evs (Controller.new_AbortablePromise executor) in
  Controller.abort r2 (Controller.abort r1 s) = Controller.abort r1 s.
Proof. intros s; apply controller_abort_absorbs. Qed.


(** A cancel function that throws makes a late [abort] throw. *)
Example hook_late_abort_throws :
  let settled :=
    Hook.new_AbortablePromise
      [Hook.OnCancel [Throw (Thrown "cleanup failed")];
       Hook.Plain (Do (CallResolve 7%Z))] in
  Hook.state_of settled = Fulfilled 7%Z /\
  snd (Hook.abort None settled) = Some (Thrown "cleanup failed").
Proof. split; reflexivity. Qed.

Lemma hook_abort_outcome {T} r (s : Hook.State T) :
  Hook.state_of (fst (Hook.abort r s))
  = match Hook.onCancel s with
    | Some cancelFn => promise (fst (exec_block cancelFn (Hook.env s)))
    | None => Hook.state_of s
    end.
Proof.
  unfold Hook.abort, Hook.state_of.
  destruct (Hook.onCancel s) as [f|]; [|reflexivity].
  destruct (exec_block f (Hook.env s)) as [e [x|]]; reflexivity.
Qed.

Lemma hook_abort_exception {T} r (s : Hook.State T) :
  snd (Hook.abort r s)
  = match Hook.onCancel s with
    | Some cancelFn => snd (exec_block cancelFn (Hook.env s))
    | None => None
    end.
Proof.
  unfold Hook.abort.
  destruct (Hook.onCancel s) as [f|]; [|reflexivity].
  destruct (exec_block f (Hook.env s)) as [e [x|]]; reflexivity.
Qed.

Lemma hook_abort_calls {T} r (s : Hook.State T) :
  Hook.hookCalls (fst (Hook.abort r s))
  = match Hook.onCancel s with
    | Some _ => S (Hook.hookCalls s)
    | None => Hook.hookCalls s
    end.
Proof.
  unfold Hook.abort.
  destruct (Hook.onCancel s) as [f|]; [|reflexivity].
  destruct (exec_block f (Hook.env s)) as [e [x|]]; reflexivity.
Qed.




(** C6.  Controller draft: once an [abort] has settled a pending
    operation, whatever the executor does later (a late [resolve] or
    [reject] among any further events) leaves it rejected with the
    [AbortError] of that call.  In the other two drafts as well, a
    promise rejected with an [AbortError] stays so under any events. *)
Theorem C6_late_results_discarded (T : Type) :
  (forall (executor : list (ExecStmt T)) (evs later : list (Controller.Event T))
          (reason : option string),
      let s := run Controller.step evs (Controller.new_AbortablePromise executor) in
      Controller.state_of s = Pending ->
      Controller.state_of (run Controller.step later (Controller.abort reason s))
        = Rejected (AbortError (or_default reason))) /\
  (forall (s : Hook.State T) (later : list (Hook.Event T)) (message : string),
      Hook.state_of s = Rejected (AbortError message) ->
      Hook.state_of (run Hook.step later s) = Rejected (AbortError message)) /\
  (forall (s : External.State T) (later : list (External.Event T)) (message : string),
      External.state_of s = Rejected (AbortError message) ->
      External.state_of (run External.step later s) = Rejected (AbortError message)).
Proof.
  split; [|split].
  - intros executor evs later reason s Hp.
    destruct (controller_abort_before_settlement executor evs reason Hp)
      as [Hrej _].
    subst s.
    rewrite (run_settled Controller.step Controller.state_of
               (@controller_step_settled T)); rewrite Hrej; [reflexivity|discriminate].
  - intros s later message H.
    rewrite (run_settled Hook.step Hook.state_of (@hook_step_settled T));
      rewrite H; [reflexivity|discriminate].
  - intros s later message H.
    rewrite (run_settled External.step External.state_of (@external_step_settled T));
      rewrite H; [reflexivity|discriminate].
Qed.

(** The BLE request of part_000: aborted at once, its timer still
    elapses (nothing clears it) and calls [resolve]; the late data is
    dropped. *)
Lemma C6_late_results_discarded_witness :
  Controller.state_of
    (run Controller.step [Controller.Elapse]
       (Controller.abort (Some "User initiated abort.")
          (Controller.sendRequest BLOOD_PRESSURE)))
  = Rejected (AbortError "User initiated abort.").
Proof.
  destruct (C6_late_results_discarded BleData) as [Hctl _].
  apply (Hctl [SetTimeout (Controller.ble_finished BLOOD_PRESSURE)] []
              [Controller.Elapse] (Some "User initiated abort.")).
  reflexivity.
Defined.

(** The [catch] branch of [operation] in the hook draft, part_000 and
    the external-signal draft: were the awaited BLE call to fail with
    [error] while the request is pending (the timers of the shipped
    producers give it no way to), the request would be rejected with the
    [OPERATION_ERROR] object that carries [error], which is not an
    [AbortError]. *)
Lemma catch_branch_wraps_cause
  (testType : TestType) (error : string) (signal : External.AbortSignal)
  (later_hook : list (Hook.Event BleData))
  (later_controller : list (Controller.Event BleData))
  (later_external : list (External.Event BleData)) :
  Hook.state_of
    (run Hook.step (Hook.operation_failed error :: later_hook)
       (Hook.sendRequest testType))
    = Rejected (OPERATION_ERROR error) /\
  Controller.state_of
    (run Controller.step (Controller.operation_failed error :: later_controller)
       (Controller.sendRequest testType))
    = Rejected (OPERATION_ERROR error) /\
  External.state_of
    (run External.step (External.operation_failed error :: later_external)
       (External.sendRequest testType signal))
    = Rejected (OPERATION_ERROR error) /\
  is_AbortError (OPERATION_ERROR error) = false /\
  (forall message, OPERATION_ERROR error <> AbortError message).
Proof.
  split; [|split; [|split; [|split]]].
  - simpl.
    rewrite (run_settled Hook.step Hook.state_of (@hook_step_settled BleData));
      [reflexivity | discriminate].
  - simpl.
    rewrite (run_settled Controller.step Controller.state_of
               (@controller_step_settled BleData));
      [reflexivity | discriminate].
  - assert (H : External.state_of
                  (External.step (External.operation_failed error)
                     (External.sendRequest testType signal))
                = Rejected (OPERATION_ERROR error)).
    { unfold External.sendRequest, External.new_AbortablePromise; simpl.
      destruct (External.signal_aborted signal); reflexivity. }
    change (External.state_of
              (run External.step later_external
                 (External.step (External.operation_failed error)
                    (External.sendRequest testType signal)))
            = Rejected (OPERATION_ERROR error)).
    rewrite (run_settled External.step External.state_of
               (@external_step_settled BleData));
      [exact H | rewrite H; discriminate].
  - reflexivity.
  - discriminate.
Qed.

(** C7, on the BLE producer of src/index.ts, lines 186-222.  Its
    executor fails before any cancellation: line 213 reads
    [abortablePromise] outside the [try] of [operation] and throws.
    The request is rejected with the exception as it was thrown, at
    construction and for good; it is never rejected with an
    [OPERATION_ERROR] object, so the failure of the producer is not
    wrapped. *)
Theorem C7_getter_failure_is_not_wrapped
  (testType : TestType) (later : list (Controller.Event BleData)) :
  let request := Getter.sendRequest testType in
  Controller.aborted request = false /\
  Controller.state_of request = Rejected Getter.uninitialised /\
  Controller.state_of (run Controller.step later request)
    = Rejected Getter.uninitialised /\
  (forall cause,
      Controller.state_of (run Controller.step later request)
      <> Rejected (OPERATION_ERROR cause)) /\
  is_AbortError Getter.uninitialised = false.
Proof.
  intros request.
  assert (H : Controller.state_of (run Controller.step later request)
              = Rejected Getter.uninitialised).
  { rewrite (run_settled Controller.step Controller.state_of
               (@controller_step_settled BleData));
      [reflexivity | discriminate]. }
  split; [reflexivity|]. split; [reflexivity|]. split; [exact H|].
  split; [|reflexivity].
  intros cause. rewrite H. discriminate.
Qed.

(** An executor that never calls [onCancel] leaves [#onCancel] unset. *)
Lemma hook_calls_unregistered {T} (body : list (Hook.Call T)) : forall s,
  forallb (fun c => negb (registers c)) body = true ->
  Hook.onCancel s = None ->
  Hook.onCancel (fst (Hook.calls body s)) = None.
Proof.
  induction body as [|c rest IH]; intros s Hb Hs; simpl; [exact Hs|].
  simpl in Hb. apply andb_prop in Hb as [Hc Hrest].
  destruct c as [c|f]; [|discriminate]. simpl.
  destruct (exec_call c (Hook.env s)) as [e [x|]]; simpl; [exact Hs|].
  apply IH; [exact Hrest | exact Hs].
Qed.

Lemma hook_abort_unregistered {T} r (s : Hook.State T) :
  Hook.onCancel s = None -> Hook.onCancel (fst (Hook.abort r s)) = None.
Proof. unfold Hook.abort; intros H; rewrite H; exact H. Qed.

Lemma hook_run_unregistered {T} (evs : list (Hook.Event T)) : forall s,
  forallb (fun ev => negb (event_registers ev)) evs = true ->
  Hook.onCancel s = None ->
  Hook.onCancel (run Hook.step evs s) = None.
Proof.
  induction evs as [|ev rest IH]; intros s Hb Hs; simpl; [exact Hs|].
  simpl in Hb. apply andb_prop in Hb as [Hev Hrest].
  apply IH; [exact Hrest|].
  destruct ev as [c| |r]; simpl.
  - destruct c as [c|f]; [|discriminate]. simpl.
    destruct (exec_call c (Hook.env s)); exact Hs.
  - exact Hs.
  - apply hook_abort_unregistered; exact Hs.
Qed.

(** C8.  Hook draft: the state of the promise after [abort] is the
    state the registered cancel function leaves, and the state before
    the call when none is registered.  So for an executor that never
    calls [onCancel], neither at construction nor later, an [abort] on
    the pending operation returns normally and leaves it pending. *)
Theorem C8_abort_rejects_only_through_hook (T : Type) :
  (forall (s : Hook.State T) (reason : option string),
      Hook.state_of (fst (Hook.abort reason s))
      = match Hook.onCancel s with
        | Some cancelFn => promise (fst (exec_block cancelFn (Hook.env s)))
        | None => Hook.state_of s
        end) /\
  (forall (executor : list (Hook.Call T)) (evs : list (Hook.Event T))
          (reason : option string),
      forallb (fun c => negb (registers c)) executor = true ->
      forallb (fun ev => negb (event_registers ev)) evs = true ->
      let s := run Hook.step evs (Hook.new_AbortablePromise executor) in
      Hook.state_of s = Pending ->
      Hook.state_of (Hook.step (Hook.Abort reason) s) = Pending /\
      snd (Hook.abort reason s) = None).
Proof.
  split; [intros; apply hook_abort_outcome|].
  intros executor evs reason Hexec Hevs s Hp.
  assert (Hnone : Hook.onCancel s = None).
  { apply hook_run_unregistered; [exact Hevs|].
    unfold Hook.new_AbortablePromise.
    pose proof (hook_calls_unregistered executor Hook.blank Hexec eq_refl) as H.
    destruct (Hook.calls executor Hook.blank) as [s0 [x|]]; exact H. }
  split.
  - simpl. rewrite hook_abort_outcome, Hnone. exact Hp.
  - rewrite hook_abort_exception, Hnone. reflexivity.
Qed.

(** An executor that only starts the BLE timer: two [abort] calls
    leave the request pending. *)
Lemma C8_abort_rejects_only_through_hook_witness :
  Hook.state_of
    (Hook.step (Hook.Abort (Some "again"))
       (run Hook.step [Hook.Abort (Some "User initiated abort.")]
          (Hook.new_AbortablePromise
             [Hook.Plain (SetTimeout (Hook.ble_finished BLOOD_PRESSURE))])))
  = Pending.
Proof.
  destruct (C8_abort_rejects_only_through_hook BleData) as [_ H].
  apply (H [Hook.Plain (SetTimeout (Hook.ble_finished BLOOD_PRESSURE))]
           [Hook.Abort (Some "User initiated abort.")] (Some "again"));
    reflexivity.
Defined.

(** ** The external-signal draft *)
Section ExternalFacts.
Context {T : Type}.
Implicit Types (s : External.State T) (l : External.SignalListener T).

Lemma same_wiring_refl s : same_wiring s s.
Proof. repeat split. Qed.

Lemma same_wiring_trans s1 s2 s3 :
  same_wiring s1 s2 -> same_wiring s2 s3 -> same_wiring s1 s3.
Proof.
  unfold same_wiring; intros (A1 & A2 & A3 & A4) (B1 & B2 & B3 & B4).
  repeat split; congruence.
Qed.

Lemma child_dispatch_frame ls : forall s,
  let s' := fold_left (fun s c => External.invoke_child c s) ls s in
  same_wiring s s' /\
  External.child_aborted s' = External.child_aborted s /\
  External.abortReason s' = External.abortReason s.
Proof.
  induction ls as [|l rest IH]; intros s; simpl.
  - split; [apply same_wiring_refl | auto].
  - destruct (IH (External.invoke_child l s)) as (W & A & R).
    destruct l; simpl in *. auto.
Qed.

Lemma external_controller_abort_frame s :
  same_wiring s (External.controller_abort s) /\
  External.abortReason (External.controller_abort s) = External.abortReason s.
Proof.
  unfold External.controller_abort.
  destruct (External.child_aborted s);
    [split; [apply same_wiring_refl | reflexivity]|].
  match goal with
  | |- context [fold_left ?f ?ls ?s0] =>
      destruct (child_dispatch_frame ls s0) as (W & _ & R)
  end.
  split; [exact W | exact R].
Qed.

Lemma external_controller_abort_aborts s :
  External.child_aborted (External.controller_abort s) = true.
Proof.
  unfold External.controller_abort.
  destruct (External.child_aborted s) eqn:E; [exact E|].
  match goal with
  | |- context [fold_left ?f ?ls ?s0] =>
      destruct (child_dispatch_frame ls s0) as (_ & A & _)
  end.
  exact A.
Qed.

Lemma external_invoke_frame l s :
  same_wiring s (External.invoke l s) /\
  (External.child_aborted s = true ->
   External.child_aborted (External.invoke l s) = true).
Proof.
  destruct l; simpl.
  - split; [repeat split | auto].
  - unfold External.forward; simpl.
    destruct (External.child_aborted s) eqn:E; simpl.
    + split; [repeat split | auto].
    + split; [|discriminate].
      match goal with
      | |- same_wiring _ (External.controller_abort ?s0) =>
          destruct (external_controller_abort_frame s0) as [W _]
      end.
      exact W.
  - split; [repeat split | auto].
Qed.

Lemma external_forward_aborts s :
  External.child_aborted (External.invoke External.Forward s) = true.
Proof.
  simpl; unfold External.forward; simpl.
  destruct (External.child_aborted s) eqn:E; simpl; [exact E|].
  apply external_controller_abort_aborts.
Qed.

Lemma external_dispatch_frame ls : forall s,
  same_wiring s (External.dispatch ls s) /\
  (External.child_aborted s = true ->
   External.child_aborted (External.dispatch ls s) = true).
Proof.
  induction ls as [|l rest IH]; intros s; simpl.
  - split; [apply same_wiring_refl | auto].
  - destruct (external_invoke_frame l s) as (W0 & A0).
    destruct (External.stops_propagation l); [split; assumption|].
    destruct (IH (External.invoke l s)) as (W & A).
    split; [eapply same_wiring_trans; eassumption | auto].
Qed.

(** An abort of a live signal sets its flag and reason and keeps its
    listeners, whatever the listeners do. *)
Lemma external_signal_abort_parent r s :
  External.aborted s = false ->
  parent_view (External.signal_abort r s) = (true, r, External.listeners s).
Proof.
  intros Ha. unfold External.signal_abort, parent_view. rewrite Ha.
  match goal with
  | |- context [External.dispatch ?ls ?s0] =>
      destruct (external_dispatch_frame ls s0) as ((A & R & L & _) & _)
  end.
  rewrite A, R, L. reflexivity.
Qed.

Lemma external_signal_abort_flag r s :
  External.aborted (External.signal_abort r s) = true.
Proof.
  destruct (External.aborted s) eqn:Ha.
  - unfold External.signal_abort. rewrite Ha. exact Ha.
  - pose proof (external_signal_abort_parent r s Ha) as H.
    unfold parent_view in H. congruence.
Qed.

(** When no earlier listener stops the event, it reaches the
    forwarder. *)
Lemma external_dispatch_reaches_forward
  (earlier : list (@External.Earlier T)) later : forall s,
  forallb passes_on earlier = true ->
  External.child_aborted
    (External.dispatch (map External.Foreign earlier ++ External.Forward :: later) s)
  = true.
Proof.
  induction earlier as [|e rest IH]; intros s Hp; simpl.
  - destruct (external_dispatch_frame later (External.invoke External.Forward s))
      as (_ & A).
    apply A, external_forward_aborts.
  - simpl in Hp. apply andb_prop in Hp as [He Hrest].
    unfold passes_on in He. apply negb_true_iff in He. rewrite He.
    apply IH, Hrest.
Qed.

Lemma external_signal_abort_child earlier r s :
  forallb passes_on earlier = true ->
  external_inv earlier s ->
  External.child_aborted (External.signal_abort r s) = true.
Proof.
  intros Hp ((later & Hl) & Hcl & Hca).
  unfold External.signal_abort.
  destruct (External.aborted s) eqn:Ea; [congruence|].
  rewrite Hl. apply external_dispatch_reaches_forward, Hp.
Qed.

Lemma external_signal_abort_wiring r s :
  External.listeners (External.signal_abort r s) = External.listeners s /\
  External.child_listeners (External.signal_abort r s)
    = External.child_listeners s.
Proof.
  unfold External.signal_abort.
  destruct (External.aborted s); [auto|].
  match goal with
  | |- context [External.dispatch ?ls ?s0] =>
      destruct (external_dispatch_frame ls s0) as ((_ & _ & L & C) & _)
  end.
  auto.
Qed.

Lemma external_step_inv earlier ev s :
  forallb passes_on earlier = true ->
  external_inv earlier s -> external_inv earlier (External.step ev s).
Proof.
  intros Hp Hinv. destruct ev as [c| |body|r]; simpl; try exact Hinv.
  - destruct Hinv as ((later & Hl) & Hcl & Hca).
    split; [|split; assumption].
    exists (later ++ [External.OnAbort body]); simpl.
    rewrite Hl, <- app_assoc; reflexivity.
  - pose proof (external_signal_abort_child earlier r s Hp Hinv) as C.
    pose proof (external_signal_abort_flag r s) as A.
    destruct (external_signal_abort_wiring r s) as (W3 & W4).
    destruct Hinv as (Hl & Hcl & Hca).
    split; [rewrite W3; exact Hl|].
    split; [rewrite W4; exact Hcl | congruence].
Qed.

Lemma external_new_inv (signal : External.AbortSignal)
  (executor : list (ExecStmt T)) :
  external_inv (External.signal_listeners signal)
    (External.new_AbortablePromise signal executor).
Proof.
  unfold External.new_AbortablePromise; simpl.
  destruct (External.signal_aborted signal) eqn:E.
  - split; [|split]; simpl; [|reflexivity|exact (eq_sym E)].
    exists []; reflexivity.
  - split; [|split]; simpl; [|reflexivity|exact (eq_sym E)].
    exists []; reflexivity.
Qed.

Lemma external_run_inv earlier evs : forall s,
  forallb passes_on earlier = true ->
  external_inv earlier s -> external_inv earlier (run External.step evs s).
Proof.
  induction evs as [|ev rest IH]; intros s Hp H; simpl; [exact H|].
  apply IH; [exact Hp|]. apply external_step_inv; assumption.
Qed.

(** A closure that settles nothing leaves the promise as it is. *)
Lemma exec_block_keeps_promise (body : list (Stmt T)) : forall (e : Env T),
  forallb (fun c => negb (settles c)) body = true ->
  promise (fst (exec_block body e)) = promise e.
Proof.
  induction body as [|c rest IH]; intros e Hb; simpl; [reflexivity|].
  simpl in Hb. apply andb_prop in Hb as [Hc Hrest].
  destruct c; simpl in *; try discriminate;
    try (rewrite IH by exact Hrest; reflexivity).
  reflexivity.
Qed.

(** Inert earlier listeners hand the event on with the promise and the
    private controller as they found them. *)
Lemma external_inert_prefix (earlier : list (@External.Earlier T)) rest :
  forall s,
  forallb inert earlier = true ->
  exists s1,
    External.dispatch (map External.Foreign earlier ++ rest) s
    = External.dispatch rest s1 /\
    External.state_of s1 = External.state_of s /\
    External.child_aborted s1 = External.child_aborted s /\
    External.child_listeners s1 = External.child_listeners s.
Proof.
  induction earlier as [|e more IH]; intros s Hb; simpl.
  - exists s; auto.
  - simpl in Hb. apply andb_prop in Hb as [He Hmore].
    unfold inert in He. apply andb_prop in He as [Hstop Hbody].
    apply negb_true_iff in Hstop. rewrite Hstop.
    destruct (IH (External.invoke (External.Foreign e) s) Hmore)
      as (s1 & Hd & Hp & Ha & Hl).
    exists s1. split; [exact Hd|].
    split; [|split; assumption].
    rewrite Hp. unfold External.state_of; simpl.
    apply exec_block_keeps_promise, Hbody.
Qed.
End ExternalFacts.

(** C5, as stated.  External-signal draft.  The supplied signal is
    live and already has a listener that calls
    [event.stopImmediatePropagation()]; the BLE request is sent on it
    and the signal is aborted.  The event ends at that listener, the
    forwarding listener of lines 273-278 is not called: the parent is
    aborted, the child is not, and the request stays pending. *)
Lemma C5_stopped_event_leaves_child_live :
  let signal :=
    {| External.signal_aborted := false; External.signal_reason := None;
       External.signal_listeners :=
         [{| External.earlier_label := "guard";
             External.earlier_body := [];
             External.earlier_stops := true |}] |} in
  let s := External.step (External.SignalAbort None)
             (External.sendRequest BLOOD_PRESSURE signal) in
  External.aborted s = true /\
  External.child_aborted s = false /\
  External.child_aborted s <> External.aborted s /\
  External.state_of s = Pending.
Proof.
  cbv zeta. repeat split. vm_compute. discriminate.
Qed.

(** C5, amended.  External-signal draft, the supplied signal being the
    parent and the private controller the child.  A child made from an
    aborted signal starts aborted.  A child made from a live signal
    none of whose earlier listeners stops the abort event starts live,
    is aborted exactly when the signal is in every state the operation
    reaches, and is aborted after any abort of the signal.  The class
    has no operation that aborts the child alone; at the two places
    that abort it the parent is left as its own controller set it:
    after construction the signal has the flag and reason it was
    supplied with, and after an abort of the live signal it has the
    flag, the reason of that abort and the listeners it had.  No event
    other than an abort of the signal changes the signal's flag. *)
Theorem C5_child_signal_follows_parent (T : Type) :
  (forall (signal : External.AbortSignal) (executor : list (ExecStmt T)),
      External.signal_aborted signal = true ->
      External.child_aborted (External.new_AbortablePromise signal executor) = true) /\
  (forall (signal : External.AbortSignal) (executor : list (ExecStmt T))
          (evs : list (External.Event T)) (r : option string),
      External.signal_aborted signal = false ->
      forallb passes_on (External.signal_listeners signal) = true ->
      let s := run External.step evs (External.new_AbortablePromise signal executor) in
      External.child_aborted (External.new_AbortablePromise signal executor) = false /\
      External.child_aborted s = External.aborted s /\
      External.child_aborted (External.step (External.SignalAbort r) s) = true) /\
  (forall (signal : External.AbortSignal) (executor : list (ExecStmt T)),
      External.aborted (External.new_AbortablePromise signal executor)
        = External.signal_aborted signal /\
      External.reason (External.new_AbortablePromise signal executor)
        = External.signal_reason signal) /\
  (forall (signal : External.AbortSignal) (executor : list (ExecStmt T))
          (evs : list (External.Event T)) (r : option string),
      let s := run External.step evs (External.new_AbortablePromise signal executor) in
      External.aborted s = false ->
      parent_view (External.step (External.SignalAbort r) s)
        = (true, r, External.listeners s)) /\
  (forall (s : External.State T) (ev : External.Event T),
      (forall r, ev <> External.SignalAbort r) ->
      External.aborted (External.step ev s) = External.aborted s).
Proof.
  split; [|split; [|split; [|split]]].
  - intros signal executor H.
    unfold External.new_AbortablePromise; simpl. rewrite H; reflexivity.
  - intros signal executor evs r H Hp s.
    assert (Hinv : external_inv (External.signal_listeners signal) s)
      by (apply external_run_inv; [exact Hp | apply external_new_inv]).
    split; [|split].
    + unfold External.new_AbortablePromise; simpl. rewrite H; reflexivity.
    + apply Hinv.
    + simpl. eapply external_signal_abort_child; eassumption.
  - intros [a rs ls] executor.
    unfold External.new_AbortablePromise; simpl.
    destruct a; split; reflexivity.
  - intros signal executor evs r s Ha.
    apply external_signal_abort_parent, Ha.
  - intros s ev Hev. destruct ev as [c| |body|r]; try reflexivity.
    exfalso; apply (Hev r); reflexivity.
Qed.

(** The BLE request on a live signal that a logging listener already
    watches: the child is aborted once the caller aborts, and the
    signal then carries the caller's reason; on a signal that was
    aborted beforehand the child starts aborted and the signal keeps
    its reason; the timer elapsing leaves the signal live. *)
Lemma C5_child_signal_follows_parent_witness :
  let watcher := {| External.earlier_label := "caller";
                    External.earlier_body := [ConsoleLog "aborting"];
                    External.earlier_stops := false |} in
  let live := {| External.signal_aborted := false;
                 External.signal_reason := None;
                 External.signal_listeners := [watcher] |} in
  let dead := {| External.signal_aborted := true;
                 External.signal_reason := Some "stop";
                 External.signal_listeners := [] |} in
  let executor := [SetTimeout (External.ble_finished BLOOD_PRESSURE)] in
  let request :=
    run External.step [External.Listen External.ble_cleanup]
      (External.new_AbortablePromise live executor) in
  External.child_aborted (External.new_AbortablePromise dead executor) = true /\
  External.reason (External.new_AbortablePromise dead executor) = Some "stop" /\
  External.child_aborted (External.step (External.SignalAbort None) request)
    = true /\
  External.reason
    (External.step (External.SignalAbort (Some "User initiated abort.")) request)
    = Some "User initiated abort." /\
  External.aborted
    (External.step External.Elapse
       (External.sendRequest BLOOD_PRESSURE live)) = false.
Proof.
  cbv zeta.
  set (watcher := {| External.earlier_label := "caller";
                     External.earlier_body := [ConsoleLog "aborting"];
                     External.earlier_stops := false |}).
  set (live := {| External.signal_aborted := false;
                  External.signal_reason := None;
                  External.signal_listeners := [watcher] |}).
  set (dead := {| External.signal_aborted := true;
                  External.signal_reason := Some "stop";
                  External.signal_listeners := [] |}).
  set (executor := [SetTimeout (External.ble_finished BLOOD_PRESSURE)]).
  destruct (C5_child_signal_follows_parent BleData)
    as (Hdead & Hlive & Hnew & Hparent & Hother).
  split; [apply Hdead; reflexivity|].
  split; [destruct (Hnew dead executor) as [_ R]; rewrite R; reflexivity|].
  split.
  - apply (Hlive live executor [External.Listen External.ble_cleanup] None);
      reflexivity.
  - split.
    + pose proof (Hparent live executor [External.Listen External.ble_cleanup]
                    (Some "User initiated abort.") eq_refl) as H.
      unfold parent_view in H. congruence.
    + rewrite Hother; [reflexivity | discriminate].
Defined.

Section ExternalAborted.
Context {T : Type}.
Implicit Types (s : External.State T).

(** On a signal that has aborted, a cancellation request and a
    listener registration change nothing the promise depends on. *)
Lemma external_aborted_step ev s :
  External.aborted s = true ->
  External.aborted (External.step ev s) = true /\
  External.child_aborted (External.step ev s) = External.child_aborted s /\
  External.fired (External.step ev s) = External.fired s /\
  (External.from_producer ev = false ->
   External.env (External.step ev s) = External.env s).
Proof.
  intros H. destruct ev as [c| |body|r]; simpl;
    try (repeat split; auto; discriminate).
  unfold External.signal_abort; rewrite H; auto.
Qed.

Lemma external_producer_step ev s s' :
  External.from_producer ev = true ->
  External.env s = External.env s' ->
  External.env (External.step ev s) = External.env (External.step ev s').
Proof.
  intros Hp He. destruct ev as [c| |body|r]; simpl; try discriminate;
    rewrite He; reflexivity.
Qed.

Lemma external_aborted_run evs : forall s s',
  External.aborted s = true ->
  External.aborted s' = true ->
  External.env s = External.env s' ->
  let final := run External.step evs s in
  External.aborted final = true /\
  External.child_aborted final = External.child_aborted s /\
  External.fired final = External.fired s /\
  External.env final
    = External.env
        (run External.step (filter External.from_producer evs) s').
Proof.
  induction evs as [|ev rest IH]; intros s s' Ha Ha' He; simpl; [auto|].
  destruct (external_aborted_step ev s Ha) as (A & C & F & E).
  destruct (External.from_producer ev) eqn:Hp; simpl.
  - destruct (external_aborted_step ev s' Ha') as (A' & _).
    destruct (IH (External.step ev s) (External.step ev s') A A'
                (external_producer_step ev s s' Hp He)) as (I1 & I2 & I3 & I4).
    repeat split; congruence.
  - assert (He' : External.env (External.step ev s) = External.env s')
      by (rewrite E; auto).
    destruct (IH (External.step ev s) s' A Ha' He') as (I1 & I2 & I3 & I4).
    repeat split; congruence.
Qed.
End ExternalAborted.

Section Calm.
Context {T : Type}.
Implicit Types (e : Env T).

Lemma exec_stmt_calm (c : Stmt T) e :
  calls_reject c = false -> calm e -> calm (fst (exec_stmt c e)).
Proof.
  intros Hc [Hp Ht]. destruct c; simpl in *; try discriminate.
  - split; [|exact Ht]. simpl.
    intros r. specialize (Hp r). destruct (promise e); simpl; congruence.
  - split; [exact Hp|]. simpl. destruct (timer e); simpl; auto.
  - split; assumption.
  - split; assumption.
Qed.

Lemma exec_block_calm (body : list (Stmt T)) : forall e,
  existsb calls_reject body = false -> calm e -> calm (fst (exec_block body e)).
Proof.
  induction body as [|c rest IH]; intros e Hb He; simpl; [exact He|].
  simpl in Hb. apply orb_false_elim in Hb as [Hc Hrest].
  pose proof (exec_stmt_calm c e Hc He) as H.
  destruct (exec_stmt c e) as [e' [x|]]; simpl in *; [exact H|].
  apply IH; assumption.
Qed.

Lemma exec_call_calm (c : ExecStmt T) e :
  may_reject c = false -> calm e ->
  calm (fst (exec_call c e)) /\ snd (exec_call c e) = None.
Proof.
  intros Hc He. destruct c as [c|callback]; simpl in *.
  - split; [apply exec_stmt_calm; [destruct c; auto; discriminate | exact He]|].
    destruct c; try reflexivity; discriminate.
  - split; [|reflexivity]. destruct He as [Hp _]. split; [exact Hp | exact Hc].
Qed.

Lemma run_executor_calm (executor : list (ExecStmt T)) : forall e,
  forallb (fun c => negb (may_reject c)) executor = true ->
  calm e -> calm (run_executor executor e).
Proof.
  unfold run_executor.
  induction executor as [|c rest IH]; intros e Hb He; simpl; [exact He|].
  simpl in Hb. apply andb_prop in Hb as [Hc Hrest].
  apply negb_true_iff in Hc.
  destruct (exec_call_calm c e Hc He) as [H Hn].
  destruct (exec_call c e) as [e' [x|]]; simpl in *; [discriminate|].
  apply IH; assumption.
Qed.

Lemma timer_elapses_calm e : calm e -> calm (timer_elapses e).
Proof.
  intros He. unfold timer_elapses.
  destruct (timer e) as [|callback| |] eqn:Et; try exact He.
  destruct He as [Hp Ht]. rewrite Et in Ht.
  apply exec_block_calm; [exact Ht|]. split; simpl; auto.
Qed.

Lemma external_aborted_calm (evs : list (External.Event T)) : forall s,
  External.aborted s = true ->
  forallb (fun ev => negb (event_may_reject ev)) evs = true ->
  calm (External.env s) ->
  calm (External.env (run External.step evs s)).
Proof.
  induction evs as [|ev rest IH]; intros s Ha Hb Hs; simpl; [exact Hs|].
  simpl in Hb. apply andb_prop in Hb as [Hev Hrest].
  destruct (external_aborted_step ev s Ha) as (A & _ & _ & E).
  apply IH; [exact A | exact Hrest |].
  destruct ev as [c| |body|r].
  - simpl. apply exec_call_calm; [apply negb_true_iff; exact Hev | exact Hs].
  - simpl. apply timer_elapses_calm; exact Hs.
  - rewrite E by reflexivity. exact Hs.
  - rewrite E by reflexivity. exact Hs.
Qed.
End Calm.

(** C9.  External-signal draft, constructed on a signal that has
    already aborted.  The private signal reports aborted from the start
    and in every later state; no listener is ever called, the rejecting
    one included; and the promise is what the executor made of it at
    construction and then what the producer's own events make of it:
    abort requests and listener registrations can be struck from the
    run without changing it.  So the promise of a producer that does not
    itself reject is never rejected. *)
Theorem C9_aborted_signal_never_rejects (T : Type)
  (signal : External.AbortSignal) (executor : list (ExecStmt T))
  (evs : list (External.Event T)) :
  External.signal_aborted signal = true ->
  let s0 := External.new_AbortablePromise signal executor in
  let s := run External.step evs s0 in
  External.child_aborted s0 = true /\
  External.child_aborted s = true /\
  External.fired s = [] /\
  External.state_of s0 = promise (run_executor executor initial_env) /\
  External.state_of s
    = External.state_of (run External.step (filter External.from_producer evs) s0) /\
  (forallb (fun ev => negb (External.from_producer ev)) evs = true ->
   External.state_of s = External.state_of s0) /\
  (forallb (fun c => negb (may_reject c)) executor = true ->
   forallb (fun ev => negb (event_may_reject ev)) evs = true ->
   forall e, External.state_of s <> Rejected e).
Proof.
  intros H s0 s.
  assert (Ha : External.aborted s0 = true).
  { unfold s0, External.new_AbortablePromise; simpl. rewrite H; exact H. }
  assert (Hc : External.child_aborted s0 = true).
  { unfold s0, External.new_AbortablePromise; simpl. rewrite H; reflexivity. }
  assert (Hf : External.fired s0 = []).
  { unfold s0, External.new_AbortablePromise; simpl. rewrite H; reflexivity. }
  assert (He : External.env s0 = run_executor executor initial_env).
  { unfold s0, External.new_AbortablePromise; simpl. rewrite H; reflexivity. }
  destruct (external_aborted_run evs s0 s0 Ha Ha eq_refl) as (_ & C & F & E).
  fold s in C, F, E.
  split; [exact Hc|].
  split; [congruence|].
  split; [congruence|].
  split; [unfold External.state_of; rewrite He; reflexivity|].
  split; [unfold External.state_of; rewrite E; reflexivity|].
  split.
  - intros Hq. unfold External.state_of; rewrite E.
    replace (filter External.from_producer evs) with (@nil (External.Event T));
      [reflexivity|].
    clear -Hq. induction evs as [|ev rest IH]; [reflexivity|].
    simpl in *. apply andb_prop in Hq as [Hev Hrest].
    destruct (External.from_producer ev); [discriminate | auto].
  - intros Hexec Hevs.
    assert (Hcalm : calm (External.env s)).
    { apply external_aborted_calm; [exact Ha | exact Hevs |].
      rewrite He. apply run_executor_calm; [exact Hexec|].
      split; simpl; [discriminate | exact I]. }
    apply Hcalm.
Qed.

(** The BLE request on a signal aborted beforehand: a further abort
    request reaches nobody, the request stays pending, and when the
    timer elapses it is fulfilled as if nothing had been cancelled. *)
Lemma C9_aborted_signal_never_rejects_witness :
  let dead := {| External.signal_aborted := true;
                 External.signal_reason := Some "stop";
                 External.signal_listeners := [] |} in
  let request :=
    External.new_AbortablePromise dead
      [SetTimeout (External.ble_finished BLOOD_PRESSURE)] in
  let evs := [External.Listen External.ble_cleanup; External.SignalAbort None;
              External.Elapse] in
  External.state_of
    (run External.step
       [External.Listen External.ble_cleanup; External.SignalAbort None] request)
    = Pending /\
  External.fired (run External.step evs request) = [] /\
  External.state_of (run External.step evs request)
    = Fulfilled {| data := 50; testType := BLOOD_PRESSURE |} /\
  (forall e, External.state_of (run External.step evs request) <> Rejected e).
Proof.
  cbv zeta.
  set (dead := {| External.signal_aborted := true;
                  External.signal_reason := Some "stop";
                  External.signal_listeners := [] |}).
  set (executor := [SetTimeout (External.ble_finished BLOOD_PRESSURE)]).
  set (evs := [External.Listen External.ble_cleanup; External.SignalAbort None;
               External.Elapse]).
  destruct (C9_aborted_signal_never_rejects BleData dead executor
              [External.Listen External.ble_cleanup; External.SignalAbort None]
              eq_refl) as (_ & _ & _ & _ & _ & Hquiet & _).
  destruct (C9_aborted_signal_never_rejects BleData dead executor evs eq_refl)
    as (_ & _ & Hfired & _ & Hsame & _ & Hnever).
  split; [rewrite Hquiet; reflexivity|].
  split; [exact Hfired|].
  split; [rewrite Hsame; reflexivity|].
  apply Hnever; reflexivity.
Defined.

(** C10, as stated.  The BLE request on a live signal completes when
    its timer elapses; the signal is aborted afterwards, with a reason,
    and the operation stays fulfilled: it does not reject. *)
Lemma C10_abort_after_completion :
  let live := {| External.signal_aborted := false;
                 External.signal_reason := None;
                 External.signal_listeners := [] |} in
  let completed :=
    External.step External.Elapse (External.sendRequest BLOOD_PRESSURE live) in
  let after :=
    External.step (External.SignalAbort (Some "User initiated abort.")) completed in
  External.aborted completed = false /\
  External.aborted after = true /\
  External.state_of after = Fulfilled {| data := 50; testType := BLOOD_PRESSURE |} /\
  ~ (exists message, External.state_of after = Rejected (AbortError message)).
Proof.
  cbv zeta. split; [reflexivity|]. split; [reflexivity|]. split; [reflexivity|].
  intros [message H]. vm_compute in H. discriminate.
Qed.

Lemma inert_passes_on {T} (earlier : list (@External.Earlier T)) :
  forallb inert earlier = true -> forallb passes_on earlier = true.
Proof.
  induction earlier as [|e rest IH]; simpl; [reflexivity|].
  intros H. apply andb_prop in H as [He Hrest].
  unfold inert in He. apply andb_prop in He as [Hs _].
  unfold passes_on. rewrite Hs. apply IH, Hrest.
Qed.

(** C10, amended.  External-signal draft, for an executor that settles
    with plain values, on a signal whose earlier listeners neither stop
    the abort event nor settle the promise: when the signal, still live,
    is aborted while the operation is pending, the operation is
    rejected with [AbortError "Promise was aborted."] whatever reason
    the abort carries. *)
Theorem C10_forwarded_abort_has_fixed_message (T : Type)
  (signal : External.AbortSignal) (executor : list (ExecStmt T))
  (evs : list (External.Event T)) (r : option string) :
  forallb inert (External.signal_listeners signal) = true ->
  let s := run External.step evs (External.new_AbortablePromise signal executor) in
  External.aborted s = false ->
  External.state_of s = Pending ->
  External.state_of (External.step (External.SignalAbort r) s)
    = Rejected (AbortError "Promise was aborted.").
Proof.
  intros Hinert s Ha Hp.
  assert (Hinv : external_inv (External.signal_listeners signal) s).
  { apply external_run_inv; [apply inert_passes_on, Hinert|].
    apply external_new_inv. }
  destruct Hinv as ((later & Hl) & Hcl & Hca).
  rewrite Ha in Hca.
  simpl. unfold External.signal_abort. rewrite Ha, Hl.
  match goal with
  | |- context [External.dispatch (_ ++ ?rest) ?s0] =>
      destruct (external_inert_prefix (External.signal_listeners signal)
                  rest s0 Hinert) as (s1 & Hd & P1 & A1 & L1)
  end.
  rewrite Hd.
  assert (P : promise (External.env s1) = Pending)
    by (unfold External.state_of in P1, Hp; rewrite P1; exact Hp).
  assert (A : External.child_aborted s1 = false) by (rewrite A1; exact Hca).
  assert (L : External.child_listeners s1 = [External.RejectOnAbort])
    by (rewrite L1; exact Hcl).
  clear Hd P1 A1 L1.
  change (External.dispatch (External.Forward :: later) s1)
    with (External.dispatch later (External.invoke External.Forward s1)).
  assert (Hrej : External.state_of (External.invoke External.Forward s1)
                 = Rejected (AbortError "Promise was aborted.")).
  { simpl. unfold External.forward; simpl. rewrite A; simpl.
    unfold External.controller_abort; simpl. rewrite L; simpl.
    unfold External.state_of; simpl. rewrite P. reflexivity. }
  rewrite external_dispatch_settled; rewrite Hrej; [reflexivity | discriminate].
Qed.

(** The consumer of lines 357-365: the request is sent on a live
    signal that a logging listener already watches, and the signal is
    aborted before the timer elapses, here with a reason of the
    caller's; the message is the fixed one. *)
Lemma C10_forwarded_abort_has_fixed_message_witness :
  let live := {| External.signal_aborted := false;
                 External.signal_reason := None;
                 External.signal_listeners :=
                   [{| External.earlier_label := "caller";
                       External.earlier_body := [ConsoleLog "aborting"];
                       External.earlier_stops := false |}] |} in
  External.state_of
    (External.step (External.SignalAbort (Some "User initiated abort."))
       (run External.step [External.Listen External.ble_cleanup]
          (External.new_AbortablePromise live
             [SetTimeout (External.ble_finished BLOOD_PRESSURE)])))
  = Rejected (AbortError "Promise was aborted.").
Proof.
  cbv zeta.
  apply (C10_forwarded_abort_has_fixed_message BleData
           {| External.signal_aborted := false;
              External.signal_reason := None;
              External.signal_listeners :=
                [{| External.earlier_label := "caller";
                    External.earlier_body := [ConsoleLog "aborting"];
                    External.earlier_stops := false |}] |}
           [SetTimeout (External.ble_finished BLOOD_PRESSURE)]
           [External.Listen External.ble_cleanup]
           (Some "User initiated abort."));
    reflexivity.
Defined.

(** * Further properties of the drafts *)

(** ** Hook draft: who runs the cancel function, and how often *)
Section HookCalls.
Context {T : Type}.
Implicit Types (s : Hook.State T) (ev : Hook.Event T).

Lemma hook_step_calls ev s :
  is_abort ev = false ->
  Hook.hookCalls (Hook.step ev s) = Hook.hookCalls s /\
  Hook.abortReason (Hook.step ev s) = Hook.abortReason s.
Proof.
  intros H. destruct ev as [c| |r]; simpl; [|auto|discriminate].
  destruct c as [c|f]; simpl; [|auto].
  destruct (exec_call c (Hook.env s)); auto.
Qed.

Lemma hook_run_calls (evs : list (Hook.Event T)) : forall s,
  forallb (fun ev => negb (is_abort ev)) evs = true ->
  Hook.hookCalls (run Hook.step evs s) = Hook.hookCalls s.
Proof.
  induction evs as [|ev rest IH]; intros s Hb; simpl; [reflexivity|].
  simpl in Hb. apply andb_prop in Hb as [Hev Hrest].
  apply negb_true_iff in Hev.
  fold (run Hook.step rest (Hook.step ev s)).
  rewrite IH by exact Hrest. apply hook_step_calls, Hev.
Qed.

Lemma hook_run_without_hook (evs : list (Hook.Event T)) : forall s,
  forallb (fun ev => negb (event_registers ev)) evs = true ->
  Hook.onCancel s = None ->
  Hook.hookCalls (run Hook.step evs s) = Hook.hookCalls s.
Proof.
  induction evs as [|ev rest IH]; intros s Hb Hs; simpl; [reflexivity|].
  simpl in Hb. apply andb_prop in Hb as [Hev Hrest].
  fold (run Hook.step rest (Hook.step ev s)).
  assert (Hstep : Hook.onCancel (Hook.step ev s) = None /\
                  Hook.hookCalls (Hook.step ev s) = Hook.hookCalls s).
  { destruct ev as [c| |r]; simpl.
    - destruct c as [c|f]; [|discriminate]. simpl.
      destruct (exec_call c (Hook.env s)); auto.
    - auto.
    - split; [apply hook_abort_unregistered; exact Hs|].
      rewrite hook_abort_calls, Hs; reflexivity. }
  destruct Hstep as [Hn Hc].
  rewrite IH by assumption. exact Hc.
Qed.
End HookCalls.

(** X1.  Hook draft, [abort] (lines 48-52), for cancel functions that
    do not call back into the object (no [abort] and no [onCancel] from
    inside the function, as in the closures of this model; line 50 runs
    the function before line 51 clears it, so one that calls [abort]
    would run again).  An [abort] that returns normally has run the
    registered cancel function at most once and leaves none registered;
    until the executor registers another one, no later event (further
    aborts included) runs a cancel function. *)
Theorem X1_cancel_function_runs_once (T : Type)
  (s : Hook.State T) (reason : option string) (later : list (Hook.Event T)) :
  snd (Hook.abort reason s) = None ->
  forallb (fun ev => negb (event_registers ev)) later = true ->
  let aborted := fst (Hook.abort reason s) in
  Hook.onCancel aborted = None /\
  Hook.hookCalls aborted <= S (Hook.hookCalls s) /\
  Hook.hookCalls (run Hook.step later aborted) = Hook.hookCalls aborted.
Proof.
  intros Hret Hlater aborted.
  assert (Hnone : Hook.onCancel aborted = None).
  { unfold aborted, Hook.abort in *.
    destruct (Hook.onCancel s) as [f|] eqn:E; [|simpl; exact E].
    destruct (exec_block f (Hook.env s)) as [e [x|]]; [discriminate|reflexivity]. }
  split; [exact Hnone|]. split.
  - unfold aborted. rewrite hook_abort_calls.
    destruct (Hook.onCancel s); lia.
  - apply hook_run_without_hook; assumption.
Qed.

(** The BLE request, aborted three times with the timer elapsing in
    between: its cancel function has run once. *)
Lemma X1_cancel_function_runs_once_witness :
  Hook.hookCalls
    (run Hook.step [Hook.Abort None; Hook.Elapse; Hook.Abort (Some "again")]
       (fst (Hook.abort (Some "User initiated abort.")
               (Hook.sendRequest BLOOD_PRESSURE))))
  = 1.
Proof.
  destruct (X1_cancel_function_runs_once BleData
              (Hook.sendRequest BLOOD_PRESSURE) (Some "User initiated abort.")
              [Hook.Abort None; Hook.Elapse; Hook.Abort (Some "again")]
              eq_refl eq_refl) as (_ & _ & H).
  rewrite H. reflexivity.
Defined.

(** X2.  Hook draft, [abort] (lines 49-55).  When the registered cancel
    function throws, the exception escapes [abort] and the statements
    after the call are skipped: the function stays registered, the
    reason is not stored, no handler is attached, and the next [abort]
    runs the function again. *)
Theorem X2_throwing_cancel_function_stays (T : Type)
  (s : Hook.State T) (cancelFn : list (Stmt T)) (x : Rejection)
  (reason again : option string) :
  Hook.onCancel s = Some cancelFn ->
  snd (exec_block cancelFn (Hook.env s)) = Some x ->
  let failed := fst (Hook.abort reason s) in
  snd (Hook.abort reason s) = Some x /\
  Hook.onCancel failed = Some cancelFn /\
  Hook.abortReason failed = Hook.abortReason s /\
  Hook.catchers failed = Hook.catchers s /\
  Hook.hookCalls (fst (Hook.abort again failed)) = S (S (Hook.hookCalls s)).
Proof.
  intros Hreg Hthrow failed.
  assert (Hfailed : snd (Hook.abort reason s) = Some x /\
                    Hook.onCancel failed = Some cancelFn /\
                    Hook.abortReason failed = Hook.abortReason s /\
                    Hook.catchers failed = Hook.catchers s /\
                    Hook.hookCalls failed = S (Hook.hookCalls s)).
  { unfold failed, Hook.abort. rewrite Hreg.
    destruct (exec_block cancelFn (Hook.env s)) as [e [y|]]; simpl in *;
      [|discriminate].
    repeat split; auto. }
  destruct Hfailed as (H1 & H2 & H3 & H4 & H5).
  repeat split; auto.
  rewrite hook_abort_calls, H2, H5. reflexivity.
Qed.

(** A cancel function that clears the timer and then throws. *)
Lemma X2_throwing_cancel_function_stays_witness :
  let s := Hook.new_AbortablePromise
             [Hook.OnCancel [ClearTimeout; Throw (Thrown "cleanup failed")];
              Hook.Plain (SetTimeout (Hook.ble_finished BLOOD_PRESSURE))] in
  snd (Hook.abort (Some "first") s) = Some (Thrown "cleanup failed") /\
  Hook.abortReason (fst (Hook.abort (Some "first") s)) = None /\
  Hook.hookCalls
    (fst (Hook.abort (Some "second") (fst (Hook.abort (Some "first") s)))) = 2.
Proof.
  cbv zeta.
  destruct (X2_throwing_cancel_function_stays BleData
              (Hook.new_AbortablePromise
                 [Hook.OnCancel [ClearTimeout; Throw (Thrown "cleanup failed")];
                  Hook.Plain (SetTimeout (Hook.ble_finished BLOOD_PRESSURE))])
              [ClearTimeout; Throw (Thrown "cleanup failed")]
              (Thrown "cleanup failed") (Some "first") (Some "second")
              eq_refl eq_refl) as (H1 & _ & H3 & _ & H5).
  split; [exact H1|]. split; [rewrite H3; reflexivity | exact H5].
Defined.

(** X3.  Hook draft, constructor (lines 22-26) and [abort].  Only
    [abort] runs a cancel function, and [onCancel] keeps the latest
    registration only: a function that is replaced before any [abort]
    is never run, and the [abort] that follows has the effect of the
    replacement alone. *)
Theorem X3_replaced_cancel_function_never_runs (T : Type)
  (s : Hook.State T) (first second : list (Stmt T))
  (between : list (Hook.Event T)) (reason : option string) :
  forallb (fun ev => negb (is_abort ev)) between = true ->
  let registered :=
    run Hook.step
      (Hook.Producer (Hook.OnCancel first)
         :: between ++ [Hook.Producer (Hook.OnCancel second)]) s in
  Hook.hookCalls registered = Hook.hookCalls s /\
  Hook.onCancel registered = Some second /\
  Hook.hookCalls (fst (Hook.abort reason registered)) = S (Hook.hookCalls s) /\
  Hook.state_of (fst (Hook.abort reason registered))
    = promise (fst (exec_block second (Hook.env registered))).
Proof.
  intros Hb registered.
  assert (Hcalls : Hook.hookCalls registered = Hook.hookCalls s).
  { unfold registered. apply hook_run_calls.
    simpl. rewrite forallb_app, Hb. reflexivity. }
  assert (Hreg : Hook.onCancel registered = Some second).
  { unfold registered, run. simpl. rewrite fold_left_app. reflexivity. }
  split; [exact Hcalls|]. split; [exact Hreg|]. split.
  - rewrite hook_abort_calls, Hreg, Hcalls. reflexivity.
  - rewrite hook_abort_outcome, Hreg. reflexivity.
Qed.

(** The executor replaces a rejecting cancel function by one that only
    logs: the [abort] that follows leaves the request pending. *)
Lemma X3_replaced_cancel_function_never_runs_witness :
  Hook.state_of
    (fst (Hook.abort None
            (run Hook.step
               [Hook.Producer (Hook.OnCancel Hook.ble_cancel); Hook.Elapse;
                Hook.Producer (Hook.OnCancel [ConsoleLog "stopping"])]
               (Hook.new_AbortablePromise []))))
  = Pending.
Proof.
  destruct (X3_replaced_cancel_function_never_runs BleData
              (Hook.new_AbortablePromise []) Hook.ble_cancel
              [ConsoleLog "stopping"] [Hook.Elapse] None eq_refl)
    as (_ & _ & _ & H).
  simpl app in H. rewrite H. reflexivity.
Defined.

(** ** The BLE request of the hook draft *)

Lemma hook_cancelled_request_rests (later : list (Hook.Event BleData)) :
  forall (s : Hook.State BleData),
  forallb (fun ev => negb (hook_from_producer ev)) later = true ->
  Hook.onCancel s = None ->
  timer (Hook.env s) = Cleared ->
  Hook.env (run Hook.step later s) = Hook.env s /\
  Hook.hookCalls (run Hook.step later s) = Hook.hookCalls s.
Proof.
  induction later as [|ev rest IH]; intros s Hb Hn Ht; simpl; [auto|].
  simpl in Hb. apply andb_prop in Hb as [Hev Hrest].
  fold (run Hook.step rest (Hook.step ev s)).
  assert (Hstep : Hook.onCancel (Hook.step ev s) = None /\
                  Hook.env (Hook.step ev s) = Hook.env s /\
                  Hook.hookCalls (Hook.step ev s) = Hook.hookCalls s).
  { destruct ev as [c| |r]; simpl; [discriminate| |].
    - unfold timer_elapses. rewrite Ht. destruct (Hook.env s); auto.
    - unfold Hook.abort. rewrite Hn. auto. }
  destruct Hstep as (Hn' & He' & Hc').
  destruct (IH (Hook.step ev s) Hrest Hn') as [He Hc]; [congruence|].
  split; congruence.
Qed.

(** X4.  Hook draft, [Ble.sendRequest] (lines 66-95).  An [abort] of the
    fresh request, with any reason, rejects it with the message fixed
    in the cancel function, clears the BLE timer and logs the
    cancellation once; whatever aborts and timer ticks follow, the
    timer callback never runs, so nothing else is logged. *)
Theorem X4_hook_request_abort_stops_timer
  (testType : TestType) (reason : option string)
  (later : list (Hook.Event BleData)) :
  forallb (fun ev => negb (hook_from_producer ev)) later = true ->
  let s := run Hook.step later
             (fst (Hook.abort reason (Hook.sendRequest testType))) in
  Hook.state_of s = Rejected (AbortError "Promise was aborted.") /\
  timer (Hook.env s) = Cleared /\
  console (Hook.env s) = ["BLE operation cancelled"] /\
  Hook.hookCalls s = 1.
Proof.
  intros Hb s.
  destruct (hook_cancelled_request_rests later
              (fst (Hook.abort reason (Hook.sendRequest testType)))
              Hb eq_refl eq_refl) as [He Hc].
  unfold s, Hook.state_of. rewrite He, Hc. repeat split.
Qed.

(** The consumer's abort, a second one, and the moment the 3000 ms
    would have been over. *)
Lemma X4_hook_request_abort_stops_timer_witness :
  console
    (Hook.env
       (run Hook.step [Hook.Abort None; Hook.Elapse]
          (fst (Hook.abort (Some "User initiated abort.")
                  (Hook.sendRequest LIPID_GLUCOSE)))))
  = ["BLE operation cancelled"].
Proof.
  apply (X4_hook_request_abort_stops_timer LIPID_GLUCOSE
           (Some "User initiated abort.") [Hook.Abort None; Hook.Elapse]).
  reflexivity.
Defined.

(** ** What the consumers print *)

(** X5.  [app] of every draft (the [catch] of lines 108-113 of
    src/index.ts and its copies) on a request whose awaited BLE call
    fails: the rejection is the object built in [operation]'s [catch]
    branch, which has no [message], so the consumer takes the
    [console.error] branch with an undefined message and the cause is
    not printed, whatever happens to the request afterwards. *)
Theorem X5_operation_error_is_reported_without_cause
  (testType : TestType) (error : string) (signal : External.AbortSignal)
  (later_hook : list (Hook.Event BleData))
  (later_controller : list (Controller.Event BleData))
  (later_external : list (External.Event BleData)) :
  report
    (Hook.state_of
       (run Hook.step (Hook.operation_failed error :: later_hook)
          (Hook.sendRequest testType)))
    = Some (error_Error None) /\
  report
    (Controller.state_of
       (run Controller.step
          (Controller.operation_failed error :: later_controller)
          (Controller.sendRequest testType)))
    = Some (error_Error None) /\
  report
    (External.state_of
       (run External.step (External.operation_failed error :: later_external)
          (External.sendRequest testType signal)))
    = Some (error_Error None).
Proof.
  split; [|split].
  - simpl.
    rewrite (run_settled Hook.step Hook.state_of (@hook_step_settled BleData));
      [reflexivity | discriminate].
  - simpl.
    rewrite (run_settled Controller.step Controller.state_of
               (@controller_step_settled BleData));
      [reflexivity | discriminate].
  - assert (H : External.state_of
                  (External.step (External.operation_failed error)
                     (External.sendRequest testType signal))
                = Rejected (OPERATION_ERROR error)).
    { unfold External.sendRequest, External.new_AbortablePromise; simpl.
      destruct (External.signal_aborted signal); reflexivity. }
    change (report
              (External.state_of
                 (run External.step later_external
                    (External.step (External.operation_failed error)
                       (External.sendRequest testType signal))))
            = Some (error_Error None)).
    rewrite (run_settled External.step External.state_of
               (@external_step_settled BleData)); rewrite H;
      [reflexivity | discriminate].
Qed.

(** X6.  [app] of the hook draft, of part_000 and of the external-signal
    draft, for any test type and any reason given to the cancellation.
    Cancelled before the BLE timer, all three take the [console.warn]
    branch; the message is the caller's reason (or the default) in
    part_000 only, and the fixed "Promise was aborted." in the other
    two.  With the timer first, all three print the response. *)
Theorem X6_what_the_consumers_print
  (testType : TestType) (reason : option string) :
  let response := {| data := 50; testType := testType |} in
  (report (Hook.state_of
             (run Hook.step [Hook.Abort reason; Hook.Elapse]
                (Hook.sendRequest testType)))
     = Some (warn_Aborted (Some "Promise was aborted.")) /\
   report (Controller.state_of
             (run Controller.step [Controller.Abort reason; Controller.Elapse]
                (Controller.sendRequest testType)))
     = Some (warn_Aborted (Some (or_default reason))) /\
   report (External.state_of
             (run External.step [External.SignalAbort reason; External.Elapse]
                (External.sendRequest testType ExternalApp.fresh_signal)))
     = Some (warn_Aborted (Some "Promise was aborted."))) /\
  (report (Hook.state_of
             (run Hook.step [Hook.Elapse; Hook.Abort reason]
                (Hook.sendRequest testType)))
     = Some (log_Response response) /\
   report (Controller.state_of
             (run Controller.step [Controller.Elapse; Controller.Abort reason]
                (Controller.sendRequest testType)))
     = Some (log_Response response) /\
   report (External.state_of
             (run External.step [External.Elapse; External.SignalAbort reason]
                (External.sendRequest testType ExternalApp.fresh_signal)))
     = Some (log_Response response)) /\
  HookApp.app = Some (warn_Aborted (Some "Promise was aborted.")) /\
  ControllerApp.app = Some (warn_Aborted (Some "User initiated abort.")) /\
  ExternalApp.app = Some (warn_Aborted (Some "Promise was aborted.")).
Proof.
  cbv zeta. repeat split.
Qed.

(** ** Controller draft: the first abort and what follows it *)
Section ControllerLife.
Context {T : Type}.
Implicit Types (s : Controller.State T).

Lemma controller_step_frozen (ev : Controller.Event T) s :
  Controller.aborted s = true ->
  Controller.aborted (Controller.step ev s) = true /\
  Controller.abortReason (Controller.step ev s) = Controller.abortReason s /\
  Controller.fired (Controller.step ev s) = Controller.fired s.
Proof.
  intros H. destruct ev as [c| |body|r]; simpl; auto.
  unfold Controller.abort. rewrite H. auto.
Qed.

Lemma controller_run_frozen (evs : list (Controller.Event T)) : forall s,
  Controller.aborted s = true ->
  Controller.aborted (run Controller.step evs s) = true /\
  Controller.abortReason (run Controller.step evs s) = Controller.abortReason s /\
  Controller.fired (run Controller.step evs s) = Controller.fired s.
Proof.
  induction evs as [|ev rest IH]; intros s H; simpl; [auto|].
  fold (run Controller.step rest (Controller.step ev s)).
  destruct (controller_step_frozen ev s H) as (A & R & F).
  destruct (IH (Controller.step ev s) A) as (A' & R' & F').
  repeat split; congruence.
Qed.

(** Without the getter the signal keeps the constructor's listener as
    its only one. *)
Lemma controller_run_sole_listener (evs : list (Controller.Event T)) : forall s,
  forallb (fun ev => negb (listens ev)) evs = true ->
  Controller.listeners s = [Controller.RejectOnAbort] ->
  Controller.listeners (run Controller.step evs s) = [Controller.RejectOnAbort].
Proof.
  induction evs as [|ev rest IH]; intros s Hb Hs; simpl; [exact Hs|].
  simpl in Hb. apply andb_prop in Hb as [Hev Hrest].
  apply IH; [exact Hrest|].
  destruct ev as [c| |body|r]; simpl; try exact Hs; [discriminate|].
  rewrite controller_abort_listeners. exact Hs.
Qed.

Lemma controller_abort_sole_listener r s :
  Controller.listeners s = [Controller.RejectOnAbort] ->
  timer (Controller.env (Controller.abort r s)) = timer (Controller.env s) /\
  console (Controller.env (Controller.abort r s)) = console (Controller.env s).
Proof.
  intros Hl. unfold Controller.abort, Controller.controller_abort; simpl.
  destruct (Controller.aborted s); simpl; [auto|].
  rewrite Hl; simpl. auto.
Qed.
End ControllerLife.

(** X7.  part_000, [abort] (lines 51-56) and constructor (lines 23-29):
    the class gives the executor no way to learn of a cancellation, so
    [abort] touches neither the timer nor the console of any operation;
    the BLE request's timer (lines 72-75) stays armed after an [abort]
    and still runs its callback, whose result is dropped. *)
Theorem X7_part_000_abort_leaves_producer_running (T : Type)
  (executor : list (ExecStmt T)) (evs : list (Controller.Event T))
  (testType : TestType) (reason : option string) :
  forallb (fun ev => negb (listens ev)) evs = true ->
  let s := run Controller.step evs (Controller.new_AbortablePromise executor) in
  let request := Controller.abort reason (Controller.sendRequest testType) in
  (timer (Controller.env (Controller.abort reason s)) = timer (Controller.env s) /\
   console (Controller.env (Controller.abort reason s))
     = console (Controller.env s)) /\
  timer (Controller.env request) = Armed (Controller.ble_finished testType) /\
  console (Controller.env (Controller.step Controller.Elapse request))
    = ["end of BLE operation"] /\
  Controller.state_of (Controller.step Controller.Elapse request)
    = Rejected (AbortError (or_default reason)).
Proof.
  intros Hb s request. split; [|repeat split].
  apply controller_abort_sole_listener.
  apply controller_run_sole_listener; [exact Hb | reflexivity].
Qed.

(** The BLE request of part_000 with a late failure of the producer in
    between. *)
Lemma X7_part_000_abort_leaves_producer_running_witness :
  let s := run Controller.step [Controller.operation_failed "late"]
             (Controller.sendRequest BLOOD_PRESSURE) in
  timer (Controller.env (Controller.abort None s))
  = Armed (Controller.ble_finished BLOOD_PRESSURE).
Proof.
  cbv zeta.
  destruct (X7_part_000_abort_leaves_producer_running BleData
              [SetTimeout (Controller.ble_finished BLOOD_PRESSURE)]
              [Controller.operation_failed "late"] BLOOD_PRESSURE None eq_refl)
    as ((Ht & _) & _).
  unfold Controller.sendRequest. rewrite Ht. reflexivity.
Defined.



(** X9.  Controller draft, [abort] (the guard of lines 169 of
    src/index.ts, 52 of part_000).  Once the signal has aborted, no
    later event changes the flag, the stored reason or the log of
    listener calls: a second [abort] keeps the first reason, no listener
    is called twice, and a listener registered afterwards is never
    called. *)
Theorem X9_controller_draft_aborts_once (T : Type)
  (s : Controller.State T) (later : list (Controller.Event T)) :
  Controller.aborted s = true ->
  Controller.aborted (run Controller.step later s) = true /\
  Controller.abortReason (run Controller.step later s) = Controller.abortReason s /\
  Controller.fired (run Controller.step later s) = Controller.fired s.
Proof. apply controller_run_frozen. Qed.

(** After the consumer's abort: a cleanup listener arrives late and a
    second abort carries another reason. *)
Lemma X9_controller_draft_aborts_once_witness :
  let aborted :=
    Controller.abort (Some "User initiated abort.")
      (Controller.sendRequest BLOOD_PRESSURE) in
  let later := [Controller.Listen Getter.ble_cleanup;
                Controller.Abort (Some "second")] in
  Controller.abortReason (run Controller.step later aborted)
    = Some "User initiated abort." /\
  Controller.fired (run Controller.step later aborted)
    = [Controller.RejectOnAbort].
Proof.
  cbv zeta.
  destruct (X9_controller_draft_aborts_once BleData
              (Controller.abort (Some "User initiated abort.")
                 (Controller.sendRequest BLOOD_PRESSURE))
              [Controller.Listen Getter.ble_cleanup;
               Controller.Abort (Some "second")] eq_refl) as (_ & R & F).
  split; [rewrite R | rewrite F]; reflexivity.
Defined.

(** ** The BLE request behind the [abortSignal] getter *)

(** X10.  src/index.ts, [Ble.sendRequest] of lines 187-221.  The
    executor reads [abortablePromise] while [new AbortablePromise] is
    still running, so it throws after arming the timer: the request is
    rejected with that exception at construction and stays so; the
    cleanup listener of lines 213-217 is never registered, an [abort]
    leaves the timer armed and its callback still runs; [app] takes the
    [console.error] branch although it aborted the request. *)
Theorem X10_getter_request_fails_at_construction
  (testType : TestType) (reason : option string)
  (later : list (Controller.Event BleData)) :
  let request := Getter.sendRequest testType in
  Controller.state_of (run Controller.step later request)
    = Rejected Getter.uninitialised /\
  Controller.listeners request = [Controller.RejectOnAbort] /\
  timer (Controller.env (Controller.abort reason request))
    = Armed (Getter.ble_finished testType) /\
  console
    (Controller.env
       (run Controller.step [Controller.Abort reason; Controller.Elapse] request))
    = ["end of BLE operation"] /\
  report (Controller.state_of (run Controller.step later request))
    = Some (error_Error (message Getter.uninitialised)) /\
  GetterApp.app = Some (error_Error (message Getter.uninitialised)).
Proof.
  intros request.
  assert (H : Controller.state_of (run Controller.step later request)
              = Rejected Getter.uninitialised).
  { rewrite (run_settled Controller.step Controller.state_of
               (@controller_step_settled BleData));
      [reflexivity | discriminate]. }
  split; [exact H|]. rewrite H. repeat split.
Qed.

(** ** The BLE request of the external-signal draft *)
Section ExternalRequest.
Context {T : Type}.
Implicit Types (s : External.State T).

Lemma external_step_reason (ev : External.Event T) s :
  External.aborted s = true ->
  External.abortReason (External.step ev s) = External.abortReason s.
Proof.
  intros H. destruct ev as [c| |body|r]; simpl; auto.
  unfold External.signal_abort; rewrite H; reflexivity.
Qed.

Lemma external_run_reason (evs : list (External.Event T)) : forall s,
  External.aborted s = true ->
  External.abortReason (run External.step evs s) = External.abortReason s.
Proof.
  induction evs as [|ev rest IH]; intros s H; simpl; [reflexivity|].
  fold (run External.step rest (External.step ev s)).
  destruct (external_aborted_step ev s H) as (A & _).
  rewrite IH by exact A. apply external_step_reason, H.
Qed.

Lemma external_run_quiet (evs : list (External.Event T)) : forall s,
  (External.aborted s = false -> External.fired s = []) ->
  External.aborted (run External.step evs s) = false ->
  External.fired (run External.step evs s) = [].
Proof.
  induction evs as [|ev rest IH]; intros s Hq; simpl; [exact Hq|].
  fold (run External.step rest (External.step ev s)).
  apply IH.
  destruct ev as [c| |body|r]; try exact Hq.
  intros Hf. simpl in Hf.
  rewrite external_signal_abort_flag in Hf. discriminate.
Qed.
End ExternalRequest.

(** X11.  External-signal draft, [Ble.sendRequest] (lines 316-353) on
    a live signal that has no listener yet, as the signal of the fresh
    controller that [app] passes (lines 360-361).  When the signal is
    aborted before the BLE timer, with any reason, the listeners run in
    registration order: the constructor's forwarder, which rejects the
    request with the fixed message, then the cleanup of lines 346-350,
    which clears the timer and logs; the timer callback then never
    runs. *)
Theorem X11_external_request_abort
  (testType : TestType) (signal : External.AbortSignal) (r : option string) :
  External.signal_aborted signal = false ->
  External.signal_listeners signal = [] ->
  let s := External.step (External.SignalAbort r)
             (External.sendRequest testType signal) in
  External.state_of s = Rejected (AbortError "Promise was aborted.") /\
  timer (External.env s) = Cleared /\
  console (External.env s) = ["BLE operation cancelled"] /\
  External.fired s
    = [External.OnSignal External.Forward;
       External.OnController External.RejectOnAbort;
       External.OnSignal (External.OnAbort External.ble_cleanup)] /\
  External.env (External.step External.Elapse s) = External.env s.
Proof.
  destruct signal as [a rs earlier]; simpl; intros H Hl; subst a earlier.
  repeat split.
Qed.

(** The consumer of lines 357-365, aborting with a reason. *)
Lemma X11_external_request_abort_witness :
  console
    (External.env
       (External.step (External.SignalAbort (Some "User initiated abort."))
          (External.sendRequest BLOOD_PRESSURE ExternalApp.fresh_signal)))
  = ["BLE operation cancelled"].
Proof.
  apply (X11_external_request_abort BLOOD_PRESSURE ExternalApp.fresh_signal
           (Some "User initiated abort."));
    reflexivity.
Defined.

(** X12.  External-signal draft, [Ble.sendRequest] (lines 316-353) on
    a signal that was aborted before the call.  No abort request or
    listener registration that follows reaches the request: no listener
    is called, the timer is not cleared, and when it elapses the request
    is fulfilled and the consumer prints the response. *)
Theorem X12_external_request_on_aborted_signal
  (testType : TestType) (signal : External.AbortSignal)
  (requests : list (External.Event BleData)) :
  External.signal_aborted signal = true ->
  forallb (fun ev => negb (External.from_producer ev)) requests = true ->
  let waiting := run External.step requests
                   (External.sendRequest testType signal) in
  let s := External.step External.Elapse waiting in
  External.state_of waiting = Pending /\
  timer (External.env waiting) = Armed (External.ble_finished testType) /\
  External.fired s = [] /\
  console (External.env s) = ["end of BLE operation"] /\
  report (External.state_of s)
    = Some (log_Response {| data := 50; testType := testType |}).
Proof.
  intros H Hb.
  set (s0 := External.sendRequest testType signal).
  intros waiting s.
  assert (Ha : External.aborted s0 = true).
  { unfold s0, External.sendRequest, External.new_AbortablePromise; simpl.
    rewrite H; exact H. }
  assert (He : External.env s0
               = {| promise := Pending;
                    timer := Armed (External.ble_finished testType);
                    console := [] |}).
  { unfold s0, External.sendRequest, External.new_AbortablePromise; simpl.
    rewrite H; reflexivity. }
  assert (Hf : External.fired s0 = []).
  { unfold s0, External.sendRequest, External.new_AbortablePromise; simpl.
    rewrite H; reflexivity. }
  destruct (external_aborted_run requests s0 s0 Ha Ha eq_refl)
    as (A & _ & F & E).
  fold waiting in A, F, E.
  assert (Hnone : filter External.from_producer requests = []).
  { clear -Hb. induction requests as [|ev rest IH]; [reflexivity|].
    simpl in *. apply andb_prop in Hb as [Hev Hrest].
    destruct (External.from_producer ev); [discriminate | auto]. }
  rewrite Hnone in E.
  change (run External.step [] s0) with s0 in E. rewrite He in E.
  rewrite Hf in F. clearbody waiting.
  unfold s, External.state_of. simpl. rewrite E, F. repeat split.
Qed.

(** The caller aborts again and registers a listener of its own while
    the request is running. *)
Lemma X12_external_request_on_aborted_signal_witness :
  let signal := {| External.signal_aborted := true;
                   External.signal_reason := Some "stop";
                   External.signal_listeners := [] |} in
  report
    (External.state_of
       (External.step External.Elapse
          (run External.step
             [External.SignalAbort (Some "stop");
              External.Listen [ConsoleLog "aborted"]]
             (External.sendRequest LIPID_GLUCOSE signal))))
  = Some (log_Response {| data := 50; testType := LIPID_GLUCOSE |}).
Proof.
  cbv zeta.
  apply (X12_external_request_on_aborted_signal LIPID_GLUCOSE
           {| External.signal_aborted := true;
              External.signal_reason := Some "stop";
              External.signal_listeners := [] |}
           [External.SignalAbort (Some "stop");
            External.Listen [ConsoleLog "aborted"]]);
    reflexivity.
Defined.

(** X13.  External-signal draft, constructor (lines 265-287), over the
    whole life of an operation.  While the supplied signal is live no
    listener has been called; once it has aborted, no later event calls
    a listener or changes [#abortReason].  So each listener, the
    rejecting one included, is called at most once. *)
Theorem X13_external_listeners_run_at_most_once (T : Type)
  (signal : External.AbortSignal) (executor : list (ExecStmt T))
  (evs later : list (External.Event T)) :
  let s := run External.step evs (External.new_AbortablePromise signal executor) in
  (External.aborted s = false -> External.fired s = []) /\
  (External.aborted s = true ->
   External.fired (run External.step later s) = External.fired s /\
   External.abortReason (run External.step later s) = External.abortReason s).
Proof.
  intros s. split.
  - apply external_run_quiet.
    intros _. unfold External.new_AbortablePromise; simpl.
    destruct (External.signal_aborted signal); reflexivity.
  - intros Ha. split.
    + destruct (external_aborted_run later s s Ha Ha eq_refl) as (_ & _ & F & _).
      exact F.
    + apply external_run_reason, Ha.
Qed.

(** The BLE listener is registered, the signal aborted twice: three
    listener calls are logged, all by the first abort. *)
Lemma X13_external_listeners_run_at_most_once_witness :
  let signal := {| External.signal_aborted := false;
                   External.signal_reason := None;
                   External.signal_listeners := [] |} in
  let executor := [SetTimeout (External.ble_finished BLOOD_PRESSURE)] in
  External.fired
    (run External.step [External.Listen External.ble_cleanup]
       (External.new_AbortablePromise signal executor)) = [] /\
  length
    (External.fired
       (run External.step [External.SignalAbort (Some "again"); External.Elapse]
          (run External.step
             [External.Listen External.ble_cleanup; External.SignalAbort None]
             (External.new_AbortablePromise signal executor)))) = 3.
Proof.
  cbv zeta.
  set (signal := {| External.signal_aborted := false;
                    External.signal_reason := None;
                    External.signal_listeners := [] |}).
  set (executor := [SetTimeout (External.ble_finished BLOOD_PRESSURE)]).
  split.
  - destruct (X13_external_listeners_run_at_most_once BleData signal executor
                [External.Listen External.ble_cleanup] []) as [Hlive _].
    apply Hlive. reflexivity.
  - destruct (X13_external_listeners_run_at_most_once BleData signal executor
                [External.Listen External.ble_cleanup; External.SignalAbort None]
                [External.SignalAbort (Some "again"); External.Elapse])
      as [_ Hdone].
    destruct Hdone as [F _]; [reflexivity|].
    rewrite F. reflexivity.
Defined.
